(** * The HTTPRoute reconciler of the Grafana operator

    A shallow embedding of
    [controllers/reconcilers/grafana/http_route_reconciler.go]:
    the endpoint resolver [getHttpRouteAdminURL], the spec builder
    [getHttpRouteSpec] and the reconcile step [reconcileIngress], over an
    in-memory model of the cluster API.

    Go values are modelled as follows.
    - [string] is Rocq's [string]; the empty string is the zero value.
    - [int32] is a [Z] kept in range by [wrap32]; Go's [int] is a [Z].
    - A pointer that the code dereferences or compares with [nil] is an
      [option]; a nil dereference is the outcome [Panicked].
    - A slice is a [list]; a [map[string]string] is a [gmap string string].
    - An [error] is a value of the inductive [error]; [nil] is [None].
    - Objects mutated through a pointer ([cr], [ingress], [httpRoute]) are
      passed in and returned. *)

From Stdlib Require Import Ascii String ZArith Lia.
From stdpp Require Import base strings list gmap.

Local Open Scope string_scope.

(** ** Errors, outcomes and the log *)

(** Namespace and name of a cluster object, [types.NamespacedName]. *)
Definition NamespacedName : Type := string * string.

Inductive error : Type :=
| NotFound (nn : NamespacedName)
| AlreadyExists (nn : NamespacedName)
| StoreError (msg : string)
| MergeError (msg : string)
| OwnershipError (msg : string)
| Errorf (msg : string).

(** The [Error()] method: the text of an error. *)
Definition Error (e : error) : string :=
  match e with
  | NotFound nn => "not found: " +:+ nn.1 +:+ "/" +:+ nn.2
  | AlreadyExists nn => "already exists: " +:+ nn.1 +:+ "/" +:+ nn.2
  | StoreError msg => msg
  | MergeError msg => msg
  | OwnershipError msg => msg
  | Errorf msg => msg
  end.

(** A call either returns or panics. *)
Inductive Outcome (A : Type) : Type :=
| Returned (a : A)
| Panicked (reason : string).
Arguments Returned {A} a.
Arguments Panicked {A} reason.

(** What a call does besides returning: requests to the cluster API and
    lines written to the logger. *)
Inductive Event : Type :=
| EvGetGateway (nn : NamespacedName)
| EvLogError (err : error) (msg : string)
| EvLogInfo (msg : string).

(** ** Kubernetes and gateway-api objects *)

Record LoadBalancerIngress : Type := mkLoadBalancerIngress {
  lb_IP : string;
  lb_Hostname : string
}.

Record GatewayStatusAddress : Type := mkGatewayStatusAddress {
  addr_Value : string
}.

Record Listener : Type := mkListener {
  listener_Name : string
}.

Record Gateway : Type := mkGateway {
  gw_Listeners : list Listener;            (* gw.Spec.Listeners *)
  gw_Addresses : list GatewayStatusAddress (* gw.Status.Addresses *)
}.

(** [&v2.Gateway{}] *)
Definition emptyGateway : Gateway := mkGateway [] [].

Record ParentReference : Type := mkParentReference {
  pr_Namespace : option string;  (* *Namespace *)
  pr_Name : string
}.

Inductive PathMatchType : Type :=
| PathMatchExact
| PathMatchPathPrefix
| PathMatchRegularExpression.

Record HTTPPathMatch : Type := mkHTTPPathMatch {
  pm_Type : option PathMatchType;
  pm_Value : option string
}.

Record HTTPRouteMatch : Type := mkHTTPRouteMatch {
  match_Path : option HTTPPathMatch
}.

Record BackendObjectReference : Type := mkBackendObjectReference {
  bor_Name : string;
  bor_Namespace : option string;
  bor_Port : option Z            (* *PortNumber, an int32 *)
}.

Record BackendRef : Type := mkBackendRef {
  br_BackendObjectReference : BackendObjectReference
}.

Record HTTPBackendRef : Type := mkHTTPBackendRef {
  hbr_BackendRef : BackendRef
}.

Record HTTPRouteRule : Type := mkHTTPRouteRule {
  rule_BackendRefs : list HTTPBackendRef;
  rule_Matches : list HTTPRouteMatch
}.

Record HTTPRouteSpec : Type := mkHTTPRouteSpec {
  spec_ParentRefs : list ParentReference;
  spec_Hostnames : list string;
  spec_Rules : list HTTPRouteRule
}.

(** The routing object.  The source reaches it under two names: the
    parameter [httpRoute] (its [Spec.Hostnames] and [Spec.ParentRefs]) and
    the identifier [ingress] (its [Status.LoadBalancer.Ingress], and the
    object handed to [CreateOrUpdate]); one record carries the fields of
    both. *)
Record RoutingObject : Type := mkRoutingObject {
  obj_Namespace : string;
  obj_Name : string;
  obj_Labels : gmap string string;
  obj_Owner : option NamespacedName;       (* the controller owner reference *)
  obj_Spec : HTTPRouteSpec;
  obj_LoadBalancer : list LoadBalancerIngress (* Status.LoadBalancer.Ingress *)
}.

Definition objectKey (o : RoutingObject) : NamespacedName :=
  (obj_Namespace o, obj_Name o).

(** [v1.ServiceBackendPort] *)
Record ServiceBackendPort : Type := mkServiceBackendPort {
  sbp_Name : string;
  sbp_Number : Z
}.

(** ** [intstr.IntOrString] *)

Definition wrap32 (z : Z) : Z := (z + 2 ^ 31) mod 2 ^ 32 - 2 ^ 31.

Inductive IntOrStringType : Type := IntType | StringType.

Record IntOrString : Type := mkIntOrString {
  ios_Type : IntOrStringType;
  ios_IntVal : Z;
  ios_StrVal : string
}.

Definition FromInt (val : Z) : IntOrString :=
  mkIntOrString IntType (wrap32 val) "".

Definition digitValue (c : ascii) : option Z :=
  let n := Z.of_nat (nat_of_ascii c) in
  if decide (48 <= n <= 57)%Z then Some (n - 48)%Z else None.

Fixpoint parseDigits (acc : Z) (s : string) : option Z :=
  match s with
  | EmptyString => Some acc
  | String c rest =>
      match digitValue c with
      | Some d => parseDigits (10 * acc + d)%Z rest
      | None => None
      end
  end.

Definition clamp64 (z : Z) : Z :=
  Z.max (- 2 ^ 63) (Z.min (2 ^ 63 - 1) z).

(** [i, _ := strconv.Atoi(s)]: the value with the error dropped; 0 on a
    syntax error, the nearest bound on a range error. *)
Definition Atoi (s : string) : Z :=
  let unsigned (t : string) (sign : Z) :=
    match t with
    | EmptyString => 0%Z
    | _ => match parseDigits 0 t with
           | Some n => clamp64 (sign * n)
           | None => 0%Z
           end
    end in
  match s with
  | String "+"%char rest => unsigned rest 1%Z
  | String "-"%char rest => unsigned rest (-1)%Z
  | _ => unsigned s 1%Z
  end.

Definition IntValue (p : IntOrString) : Z :=
  match ios_Type p with
  | StringType => Atoi (ios_StrVal p)
  | IntType => ios_IntVal p
  end.

(** ** The cluster API behind [client.Client] *)

(** Modelled from the spec: the object store behind [client.Client], a
    key-value store of typed objects whose calls can fail.  It holds the
    objects the reconciler reads and writes, with a switch per kind that
    makes every request for that kind fail (an API outage). *)
Record Cluster : Type := mkCluster {
  cl_routes : gmap (string * string) RoutingObject;
  cl_routesDown : option string;
  cl_gateways : gmap (string * string) Gateway;
  cl_gatewaysDown : option string
}.

(** Modelled from the spec: [r.client.Get(ctx, gwnn, gw)] for a Gateway,
    a call of the store.  It gives the object, or an error: the outage, or
    not-found when the store does not hold the object. *)
Definition clientGetGateway (c : Cluster) (nn : NamespacedName)
  : error + Gateway :=
  match cl_gatewaysDown c with
  | Some msg => inl (StoreError msg)
  | None =>
      match cl_gateways c !! nn with
      | Some gw => inr gw
      | None => inl (NotFound nn)
      end
  end.

(** ** The endpoint resolver, [getHttpRouteAdminURL] *)

(** [for _, address := range gw.Status.Addresses], lines 130-135: the loop
    stops at the first address with a value. *)
Fixpoint scanGatewayAddresses (addresses : list GatewayStatusAddress)
    (loadBalanceIP : string) : string :=
  match addresses with
  | [] => loadBalanceIP
  | address :: rest =>
      if decide (addr_Value address ≠ "")
      then addr_Value address
      else scanGatewayAddresses rest loadBalanceIP
  end.

(** [for _, listener := range gw.Spec.Listeners], lines 142-144: the body
    is empty, the protocol is left as it was. *)
Fixpoint scanListeners (listeners : list Listener) (protocol : string)
  : string :=
  match listeners with
  | [] => protocol
  | _ :: rest => scanListeners rest protocol
  end.

(** [for _, lb := range ingress.Status.LoadBalancer.Ingress], lines
    150-159, on the variables ([hostname], [loadBalancerIP]): the loop stops
    at the first entry with a hostname; every entry with an IP before that
    assigns [loadBalancerIP]. *)
Fixpoint scanLoadBalancer (lbs : list LoadBalancerIngress)
    (hostname loadBalancerIP : string) : string * string :=
  match lbs with
  | [] => (hostname, loadBalancerIP)
  | lb :: rest =>
      if decide (lb_Hostname lb ≠ "")
      then (lb_Hostname lb, loadBalancerIP)
      else scanLoadBalancer rest hostname
             (if decide (lb_IP lb ≠ "") then lb_IP lb else loadBalancerIP)
  end.

(** Lines 127-171, after the parent lookup has filled [gw]. *)
Definition adminURLFrom (ingress : RoutingObject) (hostname : string)
    (gw : Gateway) : string :=
  let protocol := "http" in
  let hostname :=
    if decide (hostname = "") then
      let loadBalanceIP := scanGatewayAddresses (gw_Addresses gw) "" in
      if decide (loadBalanceIP ≠ "") then loadBalanceIP else hostname
    else hostname in
  let protocol := scanListeners (gw_Listeners gw) protocol in
  let hostname :=
    if decide (hostname = "") then
      let '(hostname, loadBalancerIP) :=
        scanLoadBalancer (obj_LoadBalancer ingress) hostname "" in
      if decide (hostname = "" ∧ loadBalancerIP ≠ "")
      then loadBalancerIP else hostname
    else hostname in
  if decide (hostname ≠ "")
  then protocol +:+ "://" +:+ hostname
  else "".

(** [getHttpRouteAdminURL(ctx, httpRoute)].  The identifier [ingress] of
    line 150 is neither a parameter of the function nor a variable of the
    file; it is a further argument here.  At the call of line 78 it is the
    route itself.  The result is the events of the call and its outcome. *)
Definition getHttpRouteAdminURL (c : Cluster) (ingress : RoutingObject)
    (httpRoute : option RoutingObject) : list Event * Outcome string :=
  match httpRoute with
  | None => ([], Returned "")
  | Some httpRoute =>
      let hostname :=
        match spec_Hostnames (obj_Spec httpRoute) with
        | h :: _ => h
        | [] => ""
        end in
      let gw := emptyGateway in
      match spec_ParentRefs (obj_Spec httpRoute) with
      | pr :: _ =>
          match pr_Namespace pr with
          | None => ([], Panicked "nil pointer dereference")
          | Some ns =>
              let gwnn := (ns, pr_Name pr) in
              match clientGetGateway c gwnn with
              | inl err =>
                  ([EvGetGateway gwnn;
                    EvLogError err "error synchronizing grafana statuses"],
                   Returned "")
              | inr gw =>
                  ([EvGetGateway gwnn],
                   Returned (adminURLFrom ingress hostname gw))
              end
          end
      | [] => ([], Returned (adminURLFrom ingress hostname gw))
      end
  end.

(** ** The Grafana resource and the helpers of the repository *)

(** A caller-supplied override: field names with raw values. *)
Definition RawFragment : Type := list (string * string).

Record Condition : Type := mkCondition {
  cond_Status : bool;
  cond_Reason : string;
  cond_Message : string
}.

Record GrafanaSpec : Type := mkGrafanaSpec {
  gs_HttpRoute : option RawFragment;   (* cr.Spec.HttpRoute *)
  gs_Ingress : option RawFragment;     (* cr.Spec.Ingress *)
  gs_PreferIngress : bool
}.

Record GrafanaStatus : Type := mkGrafanaStatus {
  st_AdminURL : string;
  st_Conditions : gmap string Condition
}.

Record Grafana : Type := mkGrafana {
  cr_Namespace : string;
  cr_Name : string;
  cr_Labels : gmap string string;
  cr_Spec : GrafanaSpec;
  cr_Status : GrafanaStatus
}.

Definition setAdminURL (cr : Grafana) (url : string) : Grafana :=
  mkGrafana (cr_Namespace cr) (cr_Name cr) (cr_Labels cr) (cr_Spec cr)
    (mkGrafanaStatus url (st_Conditions (cr_Status cr))).

Definition setConditions (cr : Grafana) (conds : gmap string Condition)
  : Grafana :=
  mkGrafana (cr_Namespace cr) (cr_Name cr) (cr_Labels cr) (cr_Spec cr)
    (mkGrafanaStatus (st_AdminURL (cr_Status cr)) conds).

Definition setSpec (o : RoutingObject) (s : HTTPRouteSpec) : RoutingObject :=
  mkRoutingObject (obj_Namespace o) (obj_Name o) (obj_Labels o) (obj_Owner o)
    s (obj_LoadBalancer o).

Definition setOwner (o : RoutingObject) (owner : option NamespacedName)
  : RoutingObject :=
  mkRoutingObject (obj_Namespace o) (obj_Name o) (obj_Labels o) owner
    (obj_Spec o) (obj_LoadBalancer o).

Definition setLabels (o : RoutingObject) (labels : gmap string string)
  : RoutingObject :=
  mkRoutingObject (obj_Namespace o) (obj_Name o) labels (obj_Owner o)
    (obj_Spec o) (obj_LoadBalancer o).

(** The functions of the repository that the file calls and that live in
    other files of it: their results are taken as given.  [merge] is the
    structural merge of an override into a specification, [v1beta1.Merge]
    without its in-place update. *)
Record Helpers : Type := mkHelpers {
  GetGrafanaHttpRoute : Grafana → RoutingObject;
  GetGrafanaService : Grafana → NamespacedName;
  GetGrafanaPort : Grafana → Z;
  getIngressSpec : Grafana → HTTPRouteSpec;
  merge : HTTPRouteSpec → option RawFragment → error + HTTPRouteSpec
}.

(** Modelled from the spec: [v1beta1.Merge] is in another file.  It
    merges the override into the specification of the object and updates
    the object in place; it fails with a merge error when the override does
    not fit the schema. *)
Definition Merge (h : Helpers) (base : RoutingObject)
    (override : option RawFragment) : error + RoutingObject :=
  match merge h (obj_Spec base) override with
  | inl err => inl err
  | inr s => inr (setSpec base s)
  end.

(** Modelled from the spec: [cr.PreferIngress()] is in another file; it
    tells whether this exposure mode is the preferred way to reach the
    instance, a flag of the resource. *)
Definition PreferIngress (cr : Grafana) : bool :=
  gs_PreferIngress (cr_Spec cr).

(** Modelled from the spec: [setInvalidMergeCondition] is in another file;
    it sets [Conditions["InvalidMerge"]] to failed with the text of the
    error. *)
Definition setInvalidMergeCondition (cr : Grafana) (objName : string)
    (err : error) : Grafana :=
  setConditions cr
    (<["InvalidMerge" := mkCondition true objName (Error err)]>
       (st_Conditions (cr_Status cr))).

(** Modelled from the spec: [removeInvalidMergeCondition] is in another
    file; it clears a condition set by an earlier failed merge. *)
Definition removeInvalidMergeCondition (cr : Grafana) (objName : string)
  : Grafana :=
  setConditions cr (delete "InvalidMerge" (st_Conditions (cr_Status cr))).

(** Modelled from the spec: [model.SetInheritedLabels] is in another
    file; the labels of the resource are copied onto the object, the other
    labels of the object stay. *)
Definition SetInheritedLabels (o : RoutingObject)
    (labels : gmap string string) : RoutingObject :=
  setLabels o (labels ∪ obj_Labels o).

(** Modelled from the spec: [controllerutil.SetControllerReference] is in
    a library, not in the repository.  The resource becomes the controller of
    the object; the call fails, an ownership error, when another resource
    already is. *)
Definition SetControllerReference (cr : Grafana) (o : RoutingObject)
  : error + RoutingObject :=
  let owner := (cr_Namespace cr, cr_Name cr) in
  match obj_Owner o with
  | Some other =>
      if decide (other = owner) then inr o
      else inl (OwnershipError "object is already owned by another controller")
  | None => inr (setOwner o (Some owner))
  end.

(** ** Decidable equality, for [equality.Semantic.DeepEqual] *)

#[global] Instance LoadBalancerIngress_eq_dec : EqDecision LoadBalancerIngress.
Proof. solve_decision. Defined.
#[global] Instance ParentReference_eq_dec : EqDecision ParentReference.
Proof. solve_decision. Defined.
#[global] Instance PathMatchType_eq_dec : EqDecision PathMatchType.
Proof. solve_decision. Defined.
#[global] Instance HTTPPathMatch_eq_dec : EqDecision HTTPPathMatch.
Proof. solve_decision. Defined.
#[global] Instance HTTPRouteMatch_eq_dec : EqDecision HTTPRouteMatch.
Proof. solve_decision. Defined.
#[global] Instance BackendObjectReference_eq_dec :
  EqDecision BackendObjectReference.
Proof. solve_decision. Defined.
#[global] Instance BackendRef_eq_dec : EqDecision BackendRef.
Proof. solve_decision. Defined.
#[global] Instance HTTPBackendRef_eq_dec : EqDecision HTTPBackendRef.
Proof. solve_decision. Defined.
#[global] Instance HTTPRouteRule_eq_dec : EqDecision HTTPRouteRule.
Proof. solve_decision. Defined.
#[global] Instance HTTPRouteSpec_eq_dec : EqDecision HTTPRouteSpec.
Proof. solve_decision. Defined.
#[global] Instance RoutingObject_eq_dec : EqDecision RoutingObject.
Proof. solve_decision. Defined.

(** ** Requests for routing objects *)

(** Modelled from the spec: [Get] of the store for a routing object; an
    object that the store does not hold is a not-found error. *)
Definition clientGet (c : Cluster) (nn : NamespacedName)
  : error + RoutingObject :=
  match cl_routesDown c with
  | Some msg => inl (StoreError msg)
  | None =>
      match cl_routes c !! nn with
      | Some o => inr o
      | None => inl (NotFound nn)
      end
  end.

Definition putRoute (c : Cluster) (o : RoutingObject) : Cluster :=
  mkCluster (<[objectKey o := o]> (cl_routes c)) (cl_routesDown c)
    (cl_gateways c) (cl_gatewaysDown c).

(** Modelled from the spec: [Create] of the store; it fails when the
    store already holds an object of that identity. *)
Definition clientCreate (c : Cluster) (o : RoutingObject) : error + Cluster :=
  match cl_routesDown c with
  | Some msg => inl (StoreError msg)
  | None =>
      match cl_routes c !! objectKey o with
      | Some _ => inl (AlreadyExists (objectKey o))
      | None => inr (putRoute c o)
      end
  end.

(** Modelled from the spec: [Update] of the store; it fails when the
    store holds no object of that identity. *)
Definition clientUpdate (c : Cluster) (o : RoutingObject) : error + Cluster :=
  match cl_routesDown c with
  | Some msg => inl (StoreError msg)
  | None =>
      match cl_routes c !! objectKey o with
      | Some _ => inr (putRoute c o)
      | None => inl (NotFound (objectKey o))
      end
  end.

Definition IsNotFound (e : error) : bool :=
  match e with NotFound _ => true | _ => false end.

(** ** [controllerutil.CreateOrUpdate] *)

Inductive OperationResult : Type :=
| OperationResultNone
| OperationResultCreated
| OperationResultUpdated.

(** What a call of [CreateOrUpdate] leaves: the cluster, the object behind
    the pointer it was given, the variables its closure captured, and the
    two values it returns. *)
Record Upserted (S : Type) : Type := mkUpserted {
  up_cluster : Cluster;
  up_obj : RoutingObject;
  up_captured : S;
  up_result : OperationResult;
  up_err : option error
}.
Arguments mkUpserted {S}.
Arguments up_cluster {S}.
Arguments up_obj {S}.
Arguments up_captured {S}.
Arguments up_result {S}.
Arguments up_err {S}.

(** The closure [f] works on the object and on the variables it captured,
    and returns an error or [None]. *)
Definition MutateFn (S : Type) : Type :=
  RoutingObject → S → S * RoutingObject * option error.

(** Modelled from the spec: [controllerutil.CreateOrUpdate] is in a
    library, not in the repository.  It is the upsert of the object store
    (sections 4.3 and 6 of the specification): the object is looked up by its
    identity; [f] is applied to the object found, or to the new one when
    there is none; the result is created, or written back when it differs
    from the object found, and nothing is written when it does not.  An
    error of the lookup, of [f] or of the write ends the call. *)
Definition CreateOrUpdate {S : Type} (c : Cluster) (obj : RoutingObject)
    (f : MutateFn S) (s : S) : Upserted S :=
  let key := objectKey obj in
  match clientGet c key with
  | inl err =>
      if IsNotFound err then
        let '(s, obj, ferr) := f obj s in
        match ferr with
        | Some e => mkUpserted c obj s OperationResultNone (Some e)
        | None =>
            match clientCreate c obj with
            | inl e => mkUpserted c obj s OperationResultNone (Some e)
            | inr c' => mkUpserted c' obj s OperationResultCreated None
            end
        end
      else mkUpserted c obj s OperationResultNone (Some err)
  | inr existing =>
      let '(s, obj, ferr) := f existing s in
      match ferr with
      | Some e => mkUpserted c obj s OperationResultNone (Some e)
      | None =>
          if decide (existing = obj)
          then mkUpserted c obj s OperationResultNone None
          else
            match clientUpdate c obj with
            | inl e => mkUpserted c obj s OperationResultNone (Some e)
            | inr c' => mkUpserted c' obj s OperationResultUpdated None
            end
      end
  end.

(** ** The reconcile step *)

Inductive OperatorStageStatus : Type :=
| OperatorStageResultSuccess
| OperatorStageResultInProgress
| OperatorStageResultFailed.

(** The closure of lines 52-71.  It captures [cr] and [httpRoute] and works
    on [ingress], the object of the upsert. *)
Definition mutateIngress (h : Helpers) : MutateFn (Grafana * RoutingObject) :=
  fun ingress captured =>
    let '(cr, httpRoute) := captured in
    let httpRoute := setSpec httpRoute (getIngressSpec h cr) in
    match Merge h ingress (gs_Ingress (cr_Spec cr)) with
    | inl err =>
        ((setInvalidMergeCondition cr "Ingress" err, httpRoute),
         ingress, Some err)
    | inr ingress =>
        let cr := removeInvalidMergeCondition cr "Ingress" in
        match SetControllerReference cr ingress with
        | inl err => ((cr, httpRoute), ingress, Some err)
        | inr ingress =>
            let ingress := SetInheritedLabels ingress (cr_Labels cr) in
            ((cr, httpRoute), ingress, None)
        end
    end.

(** Lines 50-71: the convergence of the routing object. *)
Definition converge (h : Helpers) (c : Cluster) (ingress : RoutingObject)
    (cr : Grafana) : Upserted (Grafana * RoutingObject) :=
  let httpRoute := GetGrafanaHttpRoute h cr in
  CreateOrUpdate c ingress (mutateIngress h) (cr, httpRoute).

(** What a reconcile leaves: the cluster, the resource, the routing object,
    the events of the endpoint resolution, and the stage with its error, or
    a panic. *)
Record Reconciled : Type := mkReconciled {
  rec_cluster : Cluster;
  rec_cr : Grafana;
  rec_ingress : RoutingObject;
  rec_events : list Event;
  rec_outcome : Outcome (OperatorStageStatus * option error)
}.

(** [reconcileIngress(ctx, cr, _, scheme)].  The identifier [ingress],
    the object of the upsert and of the endpoint resolution, is not bound in
    the file; it is a further argument here, an object of its own beside the
    [httpRoute] of line 50. *)
Definition reconcileIngress (h : Helpers) (c : Cluster)
    (ingress : RoutingObject) (cr : Grafana) : Reconciled :=
  match gs_HttpRoute (cr_Spec cr) with
  | None =>
      mkReconciled c cr ingress []
        (Returned (OperatorStageResultSuccess, None))
  | Some _ =>
      let up := converge h c ingress cr in
      let c := up_cluster up in
      let ingress := up_obj up in
      let cr := (up_captured up).1 in
      match up_err up with
      | Some err =>
          mkReconciled c cr ingress []
            (Returned (OperatorStageResultFailed, Some err))
      | None =>
          if PreferIngress cr then
            match getHttpRouteAdminURL c ingress (Some ingress) with
            | (evs, Panicked reason) =>
                mkReconciled c cr ingress evs (Panicked reason)
            | (evs, Returned adminURL) =>
                if decide (length (obj_LoadBalancer ingress) = 0) then
                  mkReconciled c cr ingress evs
                    (Returned (OperatorStageResultInProgress,
                               Some (Errorf "ingress is not ready yet")))
                else if decide (adminURL = "") then
                  mkReconciled c cr ingress evs
                    (Returned (OperatorStageResultFailed,
                               Some (Errorf "ingress spec is incomplete")))
                else
                  mkReconciled c (setAdminURL cr adminURL) ingress evs
                    (Returned (OperatorStageResultSuccess, None))
            end
          else
            mkReconciled c cr ingress []
              (Returned (OperatorStageResultSuccess, None))
      end
  end.

(** [Reconcile]: a log line, then [reconcileIngress]. *)
Definition Reconcile (h : Helpers) (c : Cluster) (ingress : RoutingObject)
    (cr : Grafana) : Reconciled :=
  let r := reconcileIngress h c ingress cr in
  mkReconciled (rec_cluster r) (rec_cr r) (rec_ingress r)
    (EvLogInfo "reconciling http route" :: rec_events r) (rec_outcome r).

(** ** The spec builder *)

Definition GetHttpRouteTargetPort (h : Helpers) (cr : Grafana) : IntOrString :=
  FromInt (GetGrafanaPort h cr).

(** Lines 186-193: the local [assignedPort]. *)
Definition assignPort (port : IntOrString) : ServiceBackendPort :=
  let assignedPort := mkServiceBackendPort "" 0 in
  let assignedPort :=
    if decide (0 < ios_IntVal port)%Z
    then mkServiceBackendPort (sbp_Name assignedPort) (ios_IntVal port)
    else assignedPort in
  let assignedPort :=
    if decide (ios_StrVal port ≠ "")
    then mkServiceBackendPort (ios_StrVal port) (sbp_Number assignedPort)
    else assignedPort in
  assignedPort.

Definition getHttpRouteSpec (h : Helpers) (cr : Grafana) : HTTPRouteSpec :=
  let service := GetGrafanaService h cr in
  let port := GetHttpRouteTargetPort h cr in
  let serviceName := service.2 in
  let serviceNamespace := service.1 in
  let servicePort := wrap32 (IntValue port) in
  let assignedPort := assignPort port in
  let pathType := PathMatchPathPrefix in
  let path := "/" in
  mkHTTPRouteSpec [] []
    [mkHTTPRouteRule
       [mkHTTPBackendRef
          (mkBackendRef
             (mkBackendObjectReference serviceName (Some serviceNamespace)
                (Some servicePort)))]
       [mkHTTPRouteMatch
          (Some (mkHTTPPathMatch (Some pathType) (Some path)))]].

(** ** The vocabulary of the specification *)

(** The first and the last non-empty string of a list. *)
Definition firstNonEmpty (l : list string) : option string :=
  head (filter (λ s, s ≠ "") l).

Definition lastNonEmpty (l : list string) : option string :=
  last (filter (λ s, s ≠ "") l).

Definition orElse (a b : option string) : option string :=
  match a with
  | Some _ => a
  | None => b
  end.

(** The host declared by the routing object: the first entry of its list
    of hostnames. *)
Definition explicitHostname (route : RoutingObject) : string :=
  default "" (head (spec_Hostnames (obj_Spec route))).

(** The host that the load-balancer status gives, in the words of the
    specification: the first non-empty hostname, and the first non-empty IP
    when no entry has a hostname. *)
Definition lbHostFirstIP (lbs : list LoadBalancerIngress) : option string :=
  orElse (firstNonEmpty (lb_Hostname <$> lbs)) (firstNonEmpty (lb_IP <$> lbs)).

(** The same with the last non-empty IP. *)
Definition lbHost (lbs : list LoadBalancerIngress) : option string :=
  orElse (firstNonEmpty (lb_Hostname <$> lbs)) (lastNonEmpty (lb_IP <$> lbs)).

(** The fallback chain as an ordered list of candidates: the declared
    hostname, the first address of the parent, the load-balancer status. *)
Definition foundHost (route : RoutingObject) (gw : Gateway)
    (ingress : RoutingObject) : option string :=
  orElse (firstNonEmpty [explicitHostname route])
    (orElse (firstNonEmpty (addr_Value <$> gw_Addresses gw))
       (lbHost (obj_LoadBalancer ingress))).

(** The URL of a host, and the empty URL when there is none. *)
Definition composeURL (host : option string) : string :=
  match host with
  | Some host => "http://" +:+ host
  | None => ""
  end.

(** The parent of a route, as the resolver sees it when the lookup does not
    fail: the empty gateway when the route has no parent reference, the
    gateway fetched for the first reference otherwise. *)
Inductive ParentGateway (c : Cluster) (route : RoutingObject)
  : Gateway → Prop :=
| ParentGateway_none :
    spec_ParentRefs (obj_Spec route) = [] →
    ParentGateway c route emptyGateway
| ParentGateway_fetched pr rest ns gw :
    spec_ParentRefs (obj_Spec route) = pr :: rest →
    pr_Namespace pr = Some ns →
    clientGetGateway c (ns, pr_Name pr) = inr gw →
    ParentGateway c route gw.

(** The fetch of the parent fails with [err]. *)
Definition ParentFetchFails (c : Cluster) (route : RoutingObject)
    (nn : NamespacedName) (err : error) : Prop :=
  ∃ pr rest ns,
    spec_ParentRefs (obj_Spec route) = pr :: rest ∧
    pr_Namespace pr = Some ns ∧
    nn = (ns, pr_Name pr) ∧
    clientGetGateway c nn = inl err.

(** The first parent reference has no namespace. *)
Definition NilParentNamespace (route : RoutingObject) : Prop :=
  ∃ pr rest,
    spec_ParentRefs (obj_Spec route) = pr :: rest ∧ pr_Namespace pr = None.

(** The object that the closure of the upsert works on: the live object,
    or the new one when there is none. *)
Definition fetchedOrNew (c : Cluster) (ingress : RoutingObject)
  : RoutingObject :=
  default ingress (cl_routes c !! objectKey ingress).

(** Every routing object of the cluster is stored under its own identity. *)
Definition wfCluster (c : Cluster) : Prop :=
  map_Forall (λ k o, objectKey o = k) (cl_routes c).

(** Merging the same override a second time changes nothing. *)
Definition MergeIdempotent (h : Helpers) (override : option RawFragment)
  : Prop :=
  ∀ s s', merge h s override = inr s' → merge h s' override = inr s'.


(** ** Sample objects *)

(** A merge that knows one field, the hostname. *)
Fixpoint sampleMergeFields (s : HTTPRouteSpec) (fields : RawFragment)
  : error + HTTPRouteSpec :=
  match fields with
  | [] => inr s
  | (k, v) :: rest =>
      if decide (k = "hostname")
      then sampleMergeFields
             (mkHTTPRouteSpec (spec_ParentRefs s) [v] (spec_Rules s)) rest
      else inl (MergeError ("unknown field " +:+ k))
  end.

Definition sampleMerge (s : HTTPRouteSpec) (override : option RawFragment)
  : error + HTTPRouteSpec :=
  match override with
  | None => inr s
  | Some fields => sampleMergeFields s fields
  end.

Definition emptySpec : HTTPRouteSpec := mkHTTPRouteSpec [] [] [].

Definition sampleHelpers : Helpers :=
  mkHelpers
    (λ cr, mkRoutingObject (cr_Namespace cr) (cr_Name cr +:+ "-httproute")
             ∅ None emptySpec [])
    (λ cr, (cr_Namespace cr, cr_Name cr +:+ "-service"))
    (λ _, 3000%Z)
    (λ _, emptySpec)
    sampleMerge.

Definition emptyCluster : Cluster := mkCluster ∅ None ∅ None.

Definition routeWith (parents : list ParentReference) (hostnames : list string)
    (lbs : list LoadBalancerIngress) : RoutingObject :=
  mkRoutingObject "monitoring" "grafana-ingress" ∅ None
    (mkHTTPRouteSpec parents hostnames []) lbs.

Definition sampleGrafana (override : option RawFragment) (prefer : bool)
    (adminURL : string) : Grafana :=
  mkGrafana "monitoring" "grafana" {[ "app" := "grafana" ]}
    (mkGrafanaSpec (Some []) override prefer)
    (mkGrafanaStatus adminURL ∅).

Definition gatewayRef : ParentReference :=
  mkParentReference (Some "infra") "public-gateway".

Definition clusterWithGateway (addresses : list string) : Cluster :=
  mkCluster ∅ None
    {[ ("infra", "public-gateway") :=
         mkGateway [mkListener "http"] (mkGatewayStatusAddress <$> addresses) ]}
    None.

Definition clusterWithRoute (o : RoutingObject) : Cluster :=
  mkCluster {[ objectKey o := o ]} None ∅ None.

(** The gateway that the cluster holds for the first parent reference of a
    route; the empty gateway when there is nothing to fetch. *)
Definition parentOf (c : Cluster) (route : RoutingObject) : Gateway :=
  match spec_ParentRefs (obj_Spec route) with
  | pr :: _ =>
      match pr_Namespace pr with
      | Some ns =>
          match clientGetGateway c (ns, pr_Name pr) with
          | inr gw => gw
          | inl _ => emptyGateway
          end
      | None => emptyGateway
      end
  | [] => emptyGateway
  end.

Definition lbIPThenHostname : RoutingObject :=
  routeWith [] []
    [mkLoadBalancerIngress "10.0.0.1" "";
     mkLoadBalancerIngress "" "lb.example.com"].

Definition lbTwoIPs : RoutingObject :=
  routeWith [] []
    [mkLoadBalancerIngress "10.0.0.1" ""; mkLoadBalancerIngress "10.0.0.2" ""].

Definition routeHostnameAndParent : RoutingObject :=
  routeWith [gatewayRef] ["grafana.example.com"] [].

Definition routeParentOnly : RoutingObject :=
  routeWith [gatewayRef] [] [].

Definition routeNilNamespace : RoutingObject :=
  routeWith [mkParentReference None "public-gateway"] [] [].

Definition gatewaysDown : Cluster :=
  mkCluster ∅ None ∅ (Some "connection refused").

(** The stage and the error of a reconcile that returned. *)
Definition stageOf (r : Reconciled) : option OperatorStageStatus :=
  match rec_outcome r with
  | Returned (stage, _) => Some stage
  | Panicked _ => None
  end.

Definition adminURLOf (cr : Grafana) : string := st_AdminURL (cr_Status cr).

(** Two states of a resource with the same desired state: identity, labels
    and specification; the status may differ. *)
Definition sameDesired (cr cr' : Grafana) : Prop :=
  cr_Namespace cr' = cr_Namespace cr ∧
  cr_Name cr' = cr_Name cr ∧
  cr_Labels cr' = cr_Labels cr ∧
  cr_Spec cr' = cr_Spec cr.

(** A routing object that a reconcile of the sample resource has converged,
    with the load-balancer status that the infrastructure has given it. *)
Definition liveRoute (lbs : list LoadBalancerIngress) : RoutingObject :=
  mkRoutingObject "monitoring" "grafana-ingress" {[ "app" := "grafana" ]}
    (Some ("monitoring", "grafana")) emptySpec lbs.

Definition newIngress : RoutingObject := routeWith [] [] [].

(** Reconciles of sample resources. *)
Definition hostnameOverride : Grafana :=
  sampleGrafana (Some [("hostname", "grafana.example.com")]) true "".

Definition convergedOnce : Upserted (Grafana * RoutingObject) :=
  converge sampleHelpers emptyCluster newIngress hostnameOverride.

Definition convergedTwice : Upserted (Grafana * RoutingObject) :=
  converge sampleHelpers (up_cluster convergedOnce) newIngress
    (up_captured convergedOnce).1.

Definition clusterWithAddress : Cluster :=
  clusterWithRoute (liveRoute [mkLoadBalancerIngress "10.0.0.1" ""]).

Definition invalidOverrideReconciled : Reconciled :=
  reconcileIngress sampleHelpers clusterWithAddress newIngress
    (sampleGrafana (Some [("tls", "true")]) true "").

Definition notReadyReconciled : Reconciled :=
  reconcileIngress sampleHelpers (clusterWithRoute (liveRoute [])) newIngress
    (sampleGrafana None true "http://grafana-service:3000").

Definition preferredReconciled : Reconciled :=
  reconcileIngress sampleHelpers clusterWithAddress newIngress
    (sampleGrafana None true "").

Definition parentDownReconciled : Reconciled :=
  reconcileIngress sampleHelpers
    (mkCluster {[ objectKey routeParentOnly := routeParentOnly ]} None
       ∅ (Some "connection refused"))
    routeParentOnly (sampleGrafana None true "").

Definition routeEmptyHostname : RoutingObject :=
  routeWith [] [""] [mkLoadBalancerIngress "" "lb.example.com"].

Definition notPreferredReconciled : Reconciled :=
  reconcileIngress sampleHelpers
    (clusterWithRoute (liveRoute [mkLoadBalancerIngress "" "lb.example.com"]))
    newIngress (sampleGrafana None false "http://grafana-service:3000").

(** Two answers of the store to the fetch of a gateway that the resolver
    cannot tell apart: the same error, or gateways with the same addresses. *)
Definition sameFetch (r r' : error + Gateway) : Prop :=
  match r, r' with
  | inl e, inl e' => e = e'
  | inr gw, inr gw' => gw_Addresses gw = gw_Addresses gw'
  | _, _ => False
  end.

(** The first parent reference of a route, as the key of its gateway. *)
Definition firstParentKey (route : RoutingObject) : option NamespacedName :=
  match spec_ParentRefs (obj_Spec route) with
  | pr :: _ =>
      match pr_Namespace pr with
      | Some ns => Some (ns, pr_Name pr)
      | None => None
      end
  | [] => None
  end.

(** More sample objects. *)
Definition clusterOtherListeners : Cluster :=
  mkCluster {[ objectKey newIngress := newIngress ]} None
    {[ ("infra", "public-gateway") :=
         mkGateway [mkListener "https"; mkListener "admin"]
           [mkGatewayStatusAddress "203.0.113.7"] ]}
    None.

Definition routesDown : Cluster :=
  mkCluster ∅ (Some "etcd request timed out") ∅ None.

Definition foreignRoute : RoutingObject :=
  mkRoutingObject "monitoring" "grafana-ingress" ∅
    (Some ("monitoring", "another-grafana")) emptySpec
    [mkLoadBalancerIngress "10.0.0.1" ""].

Definition staleCondition : Grafana :=
  mkGrafana "monitoring" "grafana" {[ "app" := "grafana" ]}
    (mkGrafanaSpec (Some []) None true)
    (mkGrafanaStatus "http://old.example.com"
       {[ "InvalidMerge" := mkCondition true "Ingress" "unknown field tls" ]}).

Definition builtRoute (lbs : list LoadBalancerIngress) : RoutingObject :=
  setSpec (liveRoute lbs)
    (getHttpRouteSpec sampleHelpers (sampleGrafana None true "")).

Definition wideRoute : RoutingObject :=
  routeWith [gatewayRef; mkParentReference None "second-gateway"]
    [""; "ignored.example.com"] [].






(** * Properties *)

(** ** The loops of the endpoint resolver *)

Lemma firstNonEmpty_nonempty (l : list string) (s : string) :
  firstNonEmpty l = Some s → s ≠ "".
Proof.
  unfold firstNonEmpty. induction l as [|x l IH]; [done|].
  rewrite filter_cons. destruct (decide (x ≠ "")); simpl; [|done].
  by intros [= <-].
Qed.

Lemma lastNonEmpty_nonempty (l : list string) (s : string) :
  lastNonEmpty l = Some s → s ≠ "".
Proof.
  unfold lastNonEmpty. intros Hlast.
  apply last_Some_elem_of in Hlast.
  by apply list_elem_of_filter in Hlast as [? _].
Qed.

Lemma firstNonEmpty_cons (x : string) (l : list string) :
  firstNonEmpty (x :: l) = if decide (x ≠ "") then Some x else firstNonEmpty l.
Proof.
  unfold firstNonEmpty. rewrite filter_cons.
  by destruct (decide (x ≠ "")).
Qed.

Lemma lastNonEmpty_cons (x : string) (l : list string) :
  lastNonEmpty (x :: l) =
  orElse (lastNonEmpty l) (if decide (x ≠ "") then Some x else None).
Proof.
  unfold lastNonEmpty. rewrite filter_cons.
  destruct (decide (x ≠ "")).
  - rewrite last_cons. by destruct (last _).
  - by destruct (last _).
Qed.

Lemma scanGatewayAddresses_first (addresses : list GatewayStatusAddress) :
  scanGatewayAddresses addresses "" =
  default "" (firstNonEmpty (addr_Value <$> addresses)).
Proof.
  induction addresses as [|a rest IH]; [done|].
  rewrite fmap_cons, firstNonEmpty_cons. simpl.
  by destruct (decide (addr_Value a ≠ "")).
Qed.

Lemma scanLoadBalancer_hostname (lbs : list LoadBalancerIngress) (ip : string) :
  (scanLoadBalancer lbs "" ip).1 =
  default "" (firstNonEmpty (lb_Hostname <$> lbs)).
Proof.
  revert ip. induction lbs as [|lb rest IH]; intros ip; [done|].
  rewrite fmap_cons, firstNonEmpty_cons. simpl.
  destruct (decide (lb_Hostname lb ≠ "")); [done|]. apply IH.
Qed.

Lemma scanLoadBalancer_ip (lbs : list LoadBalancerIngress) (ip : string) :
  firstNonEmpty (lb_Hostname <$> lbs) = None →
  (scanLoadBalancer lbs "" ip).2 = default ip (lastNonEmpty (lb_IP <$> lbs)).
Proof.
  revert ip. induction lbs as [|lb rest IH]; intros ip; [done|].
  rewrite !fmap_cons, firstNonEmpty_cons, lastNonEmpty_cons. simpl.
  destruct (decide (lb_Hostname lb ≠ "")); [done|]. intros Hnone.
  rewrite IH by done.
  destruct (lastNonEmpty (lb_IP <$> rest)); simpl; [done|].
  by destruct (decide (lb_IP lb ≠ "")).
Qed.

Lemma scanListeners_id (listeners : list Listener) (protocol : string) :
  scanListeners listeners protocol = protocol.
Proof. induction listeners; simpl; auto. Qed.

(** The load-balancer part of the chain: lines 147-164 leave in [hostname]
    the first hostname of the status, or the last IP when there is none. *)
Lemma scanLoadBalancer_lbHost (lbs : list LoadBalancerIngress) :
  (let '(hostname, loadBalancerIP) := scanLoadBalancer lbs "" "" in
   if decide (hostname = "" ∧ loadBalancerIP ≠ "")
   then loadBalancerIP else hostname) = default "" (lbHost lbs).
Proof.
  pose proof (scanLoadBalancer_hostname lbs "") as Hh.
  pose proof (scanLoadBalancer_ip lbs "") as Hip.
  destruct (scanLoadBalancer lbs "" "") as [hostname ip]. simpl in *.
  unfold lbHost.
  destruct (firstNonEmpty (lb_Hostname <$> lbs)) as [hn|] eqn:Hfirst; simpl in *.
  - apply firstNonEmpty_nonempty in Hfirst. subst hostname.
    destruct (decide _) as [[? _]|]; done.
  - rewrite Hip by done. subst hostname.
    destruct (lastNonEmpty (lb_IP <$> lbs)) as [i|] eqn:Hlast; simpl.
    + apply lastNonEmpty_nonempty in Hlast.
      destruct (decide _) as [|Hn]; [done|]. destruct Hn; done.
    + done.
Qed.

(** Lines 127-171 compute the URL of the host that the fallback chain
    finds. *)
Lemma adminURLFrom_foundHost (ingress route : RoutingObject) (gw : Gateway) :
  adminURLFrom ingress (explicitHostname route) gw =
  composeURL (foundHost route gw ingress).
Proof.
  unfold adminURLFrom, foundHost.
  rewrite scanListeners_id, scanGatewayAddresses_first, firstNonEmpty_cons.
  destruct (decide (explicitHostname route = "")) as [Hex|Hex].
  - rewrite Hex. simpl.
    destruct (firstNonEmpty (addr_Value <$> gw_Addresses gw)) as [a|] eqn:Ha;
      simpl.
    + apply firstNonEmpty_nonempty in Ha.
      rewrite (decide_True _ _ Ha). rewrite (decide_False _ _ Ha).
      by rewrite (decide_True _ _ Ha).
    + rewrite scanLoadBalancer_lbHost.
      destruct (lbHost (obj_LoadBalancer ingress)) as [host|] eqn:Hlb;
        simpl; [|done].
      rewrite decide_True; [done|].
      unfold lbHost, orElse in Hlb.
      destruct (firstNonEmpty _) eqn:Hf in Hlb.
      * injection Hlb as <-. by eapply firstNonEmpty_nonempty.
      * by eapply lastNonEmpty_nonempty.
  - rewrite (decide_False _ _ Hex). rewrite !(decide_True _ _ Hex). done.
Qed.

(** The resolver by cases on the parent lookup. *)
Lemma getHttpRouteAdminURL_parent (c : Cluster) (ingress route : RoutingObject)
    (gw : Gateway) :
  ParentGateway c route gw →
  (getHttpRouteAdminURL c ingress (Some route)).2 =
  Returned (composeURL (foundHost route gw ingress)).
Proof.
  intros Hparent. rewrite <- adminURLFrom_foundHost.
  unfold getHttpRouteAdminURL, explicitHostname.
  destruct Hparent as [Hnone | pr rest ns gw Hrefs Hns Hget].
  - rewrite Hnone. by destruct (spec_Hostnames _).
  - rewrite Hrefs, Hns, Hget. by destruct (spec_Hostnames _).
Qed.

Lemma getHttpRouteAdminURL_fetch_fails (c : Cluster)
    (ingress route : RoutingObject) (nn : NamespacedName) (err : error) :
  ParentFetchFails c route nn err →
  getHttpRouteAdminURL c ingress (Some route) =
  ([EvGetGateway nn; EvLogError err "error synchronizing grafana statuses"],
   Returned "").
Proof.
  intros (pr & rest & ns & Hrefs & Hns & -> & Hget).
  unfold getHttpRouteAdminURL. by rewrite Hrefs, Hns, Hget.
Qed.

Lemma getHttpRouteAdminURL_nil_namespace (c : Cluster)
    (ingress route : RoutingObject) :
  NilParentNamespace route →
  getHttpRouteAdminURL c ingress (Some route) =
  ([], Panicked "nil pointer dereference").
Proof.
  intros (pr & rest & Hrefs & Hns).
  unfold getHttpRouteAdminURL. by rewrite Hrefs, Hns.
Qed.

(** One of the three cases holds. *)
Lemma parent_cases (c : Cluster) (route : RoutingObject) :
  (∃ gw, ParentGateway c route gw) ∨
  (∃ nn err, ParentFetchFails c route nn err) ∨
  NilParentNamespace route.
Proof.
  destruct (spec_ParentRefs (obj_Spec route)) as [|pr rest] eqn:Hrefs.
  - left. eexists. by constructor.
  - destruct (pr_Namespace pr) as [ns|] eqn:Hns.
    + destruct (clientGetGateway c (ns, pr_Name pr)) as [err|gw] eqn:Hget.
      * right. left. exists (ns, pr_Name pr), err, pr, rest, ns. done.
      * left. exists gw. by econstructor.
    + right. right. by exists pr, rest.
Qed.

Lemma firstNonEmpty_all_empty (addresses : list GatewayStatusAddress) :
  Forall (λ a, addr_Value a = "") addresses →
  firstNonEmpty (addr_Value <$> addresses) = None.
Proof.
  induction 1 as [|a rest Ha _ IH]; [done|].
  rewrite fmap_cons, firstNonEmpty_cons. by rewrite decide_False by naive_solver.
Qed.

Lemma foundHost_nonempty (route ingress : RoutingObject) (gw : Gateway)
    (host : string) :
  foundHost route gw ingress = Some host → host ≠ "".
Proof.
  unfold foundHost, lbHost, orElse.
  repeat match goal with
  | |- context [match ?o with Some _ => _ | None => _ end] =>
      let E := fresh "E" in destruct o eqn:E
  end; intros Heq; simplify_eq;
  eauto using firstNonEmpty_nonempty, lastNonEmpty_nonempty.
Qed.

Lemma composeURL_foundHost_not_bare (route ingress : RoutingObject)
    (gw : Gateway) :
  composeURL (foundHost route gw ingress) ≠ "http://".
Proof.
  destruct (foundHost route gw ingress) as [host|] eqn:Hhost; simpl; [|done].
  apply foundHost_nonempty in Hhost. intros [= ?]. done.
Qed.

(** ** The endpoint resolver *)

(** C1, as amended.  For a routing object with no declared hostname and no
    usable parent address, the resolved host is the first non-empty hostname
    of the load-balancer status; when no entry has a hostname it is the last
    non-empty IP of the status; when there is neither, the URL is empty. *)
Theorem loadBalancer_fallback (c : Cluster) (ingress route : RoutingObject)
    (gw : Gateway) :
  explicitHostname route = "" →
  ParentGateway c route gw →
  Forall (λ a, addr_Value a = "") (gw_Addresses gw) →
  (getHttpRouteAdminURL c ingress (Some route)).2 =
  Returned (composeURL (lbHost (obj_LoadBalancer ingress))).
Proof.
  intros Hex Hparent Hempty.
  rewrite (getHttpRouteAdminURL_parent _ _ _ _ Hparent).
  unfold foundHost. rewrite Hex.
  by rewrite (firstNonEmpty_all_empty _ Hempty).
Qed.

(** The case of the specification: an IP-only entry, then an entry with a
    hostname; the hostname wins. *)
Lemma loadBalancer_fallback_witness :
  (getHttpRouteAdminURL emptyCluster lbIPThenHostname
     (Some lbIPThenHostname)).2 = Returned "http://lb.example.com".
Proof.
  apply (loadBalancer_fallback emptyCluster lbIPThenHostname lbIPThenHostname
           emptyGateway).
  - reflexivity.
  - constructor. reflexivity.
  - constructor.
Defined.

(** C1, as stated, fails: with two IP-only entries the resolver takes the
    second IP, not the first. *)
Lemma loadBalancer_first_ip_counterexample :
  explicitHostname lbTwoIPs = "" ∧
  ParentGateway emptyCluster lbTwoIPs emptyGateway ∧
  Forall (λ a, addr_Value a = "") (gw_Addresses emptyGateway) ∧
  lbHostFirstIP (obj_LoadBalancer lbTwoIPs) = Some "10.0.0.1" ∧
  getHttpRouteAdminURL emptyCluster lbTwoIPs (Some lbTwoIPs) =
    ([], Returned "http://10.0.0.2") ∧
  ¬ (∀ (c : Cluster) (ingress route : RoutingObject) (gw : Gateway),
       explicitHostname route = "" →
       ParentGateway c route gw →
       Forall (λ a, addr_Value a = "") (gw_Addresses gw) →
       (getHttpRouteAdminURL c ingress (Some route)).2 =
       Returned (composeURL (lbHostFirstIP (obj_LoadBalancer ingress)))).
Proof.
  assert (Hparent : ParentGateway emptyCluster lbTwoIPs emptyGateway)
    by (constructor; reflexivity).
  repeat split; try done.
  intros Hclaim.
  specialize (Hclaim emptyCluster lbTwoIPs lbTwoIPs emptyGateway
                eq_refl Hparent (List.Forall_nil _)).
  vm_compute in Hclaim. discriminate Hclaim.
Qed.

(** C2, as amended.  For a routing object whose list of hostnames starts
    with a non-empty entry: the gateway is fetched whenever the route has a
    parent reference with a namespace, declared hostname or not; when there
    is no parent reference or the fetch succeeds, the resolved URL is that of
    the first hostname, whatever the gateway holds; when the fetch fails, the
    resolved URL is empty. *)
Theorem explicit_hostname_resolution (c : Cluster)
    (ingress route : RoutingObject) (hostname : string) (rest : list string) :
  spec_Hostnames (obj_Spec route) = hostname :: rest →
  hostname ≠ "" →
  (∀ gw, ParentGateway c route gw →
     (getHttpRouteAdminURL c ingress (Some route)).2 =
     Returned ("http://" +:+ hostname)) ∧
  (∀ pr prs ns,
     spec_ParentRefs (obj_Spec route) = pr :: prs →
     pr_Namespace pr = Some ns →
     EvGetGateway (ns, pr_Name pr) ∈
       (getHttpRouteAdminURL c ingress (Some route)).1) ∧
  (∀ nn err, ParentFetchFails c route nn err →
     (getHttpRouteAdminURL c ingress (Some route)).2 = Returned "").
Proof.
  intros Hhosts Hne. split; [|split].
  - intros gw Hparent.
    rewrite (getHttpRouteAdminURL_parent _ _ _ _ Hparent).
    unfold foundHost, explicitHostname. rewrite Hhosts. simpl.
    rewrite firstNonEmpty_cons. by rewrite decide_True.
  - intros pr prs ns Hrefs Hns.
    unfold getHttpRouteAdminURL. rewrite Hrefs, Hns.
    destruct (clientGetGateway c (ns, pr_Name pr)); simpl; set_solver.
  - intros nn err Hfails.
    by rewrite (getHttpRouteAdminURL_fetch_fails _ _ _ _ _ Hfails).
Qed.

Lemma explicit_hostname_resolution_witness :
  (getHttpRouteAdminURL (clusterWithGateway ["203.0.113.7"])
     routeHostnameAndParent (Some routeHostnameAndParent)).2 =
    Returned "http://grafana.example.com" ∧
  EvGetGateway ("infra", "public-gateway") ∈
    (getHttpRouteAdminURL (clusterWithGateway ["203.0.113.7"])
       routeHostnameAndParent (Some routeHostnameAndParent)).1.
Proof.
  pose proof (explicit_hostname_resolution (clusterWithGateway ["203.0.113.7"])
                routeHostnameAndParent routeHostnameAndParent
                "grafana.example.com" [] eq_refl) as Hthm.
  destruct Hthm as (Hurl & Hget & _); [done|].
  split.
  - apply (Hurl (mkGateway [mkListener "http"]
                   [mkGatewayStatusAddress "203.0.113.7"])).
    by apply (ParentGateway_fetched _ _ gatewayRef [] "infra").
  - by apply (Hget gatewayRef [] "infra").
Defined.

(** C2, as stated, fails: a route that declares a hostname and refers to a
    gateway that the cluster does not hold.  The gateway is fetched all the
    same, and the failed fetch empties the result.  A first hostname that is
    the empty string is passed over, and the chain goes on. *)
Lemma explicit_hostname_counterexample :
  spec_Hostnames (obj_Spec routeHostnameAndParent) = ["grafana.example.com"] ∧
  getHttpRouteAdminURL emptyCluster routeHostnameAndParent
    (Some routeHostnameAndParent) =
    ([EvGetGateway ("infra", "public-gateway");
      EvLogError (NotFound ("infra", "public-gateway"))
        "error synchronizing grafana statuses"],
     Returned "") ∧
  getHttpRouteAdminURL emptyCluster routeEmptyHostname
    (Some routeEmptyHostname) = ([], Returned "http://lb.example.com") ∧
  ¬ (∀ (c : Cluster) (ingress route : RoutingObject) (hostname : string)
       (rest : list string),
       spec_Hostnames (obj_Spec route) = hostname :: rest →
       (getHttpRouteAdminURL c ingress (Some route)).2 =
         Returned ("http://" +:+ hostname) ∧
       (∀ nn, EvGetGateway nn ∉
                (getHttpRouteAdminURL c ingress (Some route)).1)).
Proof.
  repeat split.
  intros Hclaim.
  destruct (Hclaim emptyCluster routeHostnameAndParent routeHostnameAndParent
              "grafana.example.com" [] eq_refl) as [Hurl _].
  vm_compute in Hurl. discriminate Hurl.
Qed.

(** C3, as amended.  For a route with a parent reference, a failure of the
    fetch of the gateway is logged, and endpoint resolution returns the empty
    URL: the result it gives when no host is found.  The error is not
    returned. *)
Theorem parent_fetch_failure_is_logged (c : Cluster)
    (ingress route : RoutingObject) (nn : NamespacedName) (err : error) :
  ParentFetchFails c route nn err →
  getHttpRouteAdminURL c ingress (Some route) =
  ([EvGetGateway nn; EvLogError err "error synchronizing grafana statuses"],
   Returned "").
Proof. apply getHttpRouteAdminURL_fetch_fails. Qed.

Lemma parent_fetch_failure_is_logged_witness :
  getHttpRouteAdminURL gatewaysDown routeParentOnly (Some routeParentOnly) =
  ([EvGetGateway ("infra", "public-gateway");
    EvLogError (StoreError "connection refused")
      "error synchronizing grafana statuses"],
   Returned "").
Proof.
  apply (parent_fetch_failure_is_logged gatewaysDown routeParentOnly
           routeParentOnly ("infra", "public-gateway")
           (StoreError "connection refused")).
  exists gatewayRef, [], "infra". repeat split.
Defined.

(** C3, as stated, fails: the API is down, the fetch of the gateway fails,
    and endpoint resolution returns the empty URL, as it does for a route
    without any address.  The reconcile of a resource with that route and an
    empty load-balancer status then reports that the route is not ready
    yet. *)
Lemma parent_fetch_failure_counterexample :
  ParentFetchFails gatewaysDown routeParentOnly ("infra", "public-gateway")
    (StoreError "connection refused") ∧
  (getHttpRouteAdminURL gatewaysDown routeParentOnly
     (Some routeParentOnly)).2 = Returned "" ∧
  (getHttpRouteAdminURL emptyCluster (routeWith [] [] [])
     (Some (routeWith [] [] []))).2 = Returned "" ∧
  rec_outcome parentDownReconciled =
    Returned (OperatorStageResultInProgress,
              Some (Errorf "ingress is not ready yet")) ∧
  ¬ (∀ (c : Cluster) (ingress route : RoutingObject) (nn : NamespacedName)
       (err : error),
       ParentFetchFails c route nn err →
       (getHttpRouteAdminURL c ingress (Some route)).2 ≠ Returned "").
Proof.
  assert (Hfails : ParentFetchFails gatewaysDown routeParentOnly
                     ("infra", "public-gateway")
                     (StoreError "connection refused"))
    by (exists gatewayRef, [], "infra"; repeat split).
  repeat split; try done.
  intros Hclaim.
  by apply (Hclaim gatewaysDown routeParentOnly routeParentOnly _ _ Hfails).
Qed.

(** C8, as amended.  When endpoint resolution returns a URL: it is never
    ["http://"] with an empty host; it is either empty or ["http://"] followed
    by a non-empty host; when the route has no parent reference or the fetch
    of the parent succeeds, it is the URL of the host found by the fallback
    chain, and empty when the chain finds none; when the fetch of the parent
    fails, or there is no route, it is empty whatever the chain would find. *)
Theorem resolved_url_shape (c : Cluster) (ingress : RoutingObject)
    (httpRoute : option RoutingObject) (url : string) :
  (getHttpRouteAdminURL c ingress httpRoute).2 = Returned url →
  url ≠ "http://" ∧
  (url = "" ∨ ∃ host, host ≠ "" ∧ url = "http://" +:+ host) ∧
  (∀ route gw, httpRoute = Some route → ParentGateway c route gw →
     url = composeURL (foundHost route gw ingress)) ∧
  (∀ route nn err, httpRoute = Some route → ParentFetchFails c route nn err →
     url = "") ∧
  (httpRoute = None → url = "").
Proof.
  intros Hurl.
  assert (Hparent : ∀ route gw, httpRoute = Some route →
            ParentGateway c route gw →
            url = composeURL (foundHost route gw ingress)).
  { intros route gw -> Hgw.
    rewrite (getHttpRouteAdminURL_parent _ _ _ _ Hgw) in Hurl. congruence. }
  assert (Hfails : ∀ route nn err, httpRoute = Some route →
            ParentFetchFails c route nn err → url = "").
  { intros route nn err -> Hf.
    rewrite (getHttpRouteAdminURL_fetch_fails _ _ _ _ _ Hf) in Hurl.
    simpl in Hurl. congruence. }
  assert (Hnil : httpRoute = None → url = "").
  { intros ->. simpl in Hurl. congruence. }
  assert (Hshape : url = "" ∨ ∃ host, host ≠ "" ∧ url = "http://" +:+ host).
  { destruct httpRoute as [route|]; [|left; by apply Hnil].
    destruct (parent_cases c route) as [[gw Hgw]|[(nn & err & Hf)|Hnilns]].
    - rewrite (Hparent route gw eq_refl Hgw).
      destruct (foundHost route gw ingress) as [host|] eqn:Hhost; simpl.
      + right. exists host. split; [|done]. by eapply foundHost_nonempty.
      + by left.
    - left. by eapply Hfails.
    - rewrite (getHttpRouteAdminURL_nil_namespace _ _ _ Hnilns) in Hurl.
      discriminate Hurl. }
  repeat split; try done.
  destruct Hshape as [->|(host & Hhost & ->)]; [done|].
  intros [= ?]. done.
Qed.

Lemma resolved_url_shape_witness :
  "http://203.0.113.7" ≠ "http://" ∧
  "http://203.0.113.7" =
    composeURL (foundHost routeParentOnly
                  (mkGateway [mkListener "http"]
                     [mkGatewayStatusAddress ""; mkGatewayStatusAddress "203.0.113.7"])
                  routeParentOnly).
Proof.
  destruct (resolved_url_shape (clusterWithGateway [""; "203.0.113.7"])
              routeParentOnly (Some routeParentOnly) "http://203.0.113.7"
              eq_refl) as (Hbare & _ & Hchain & _).
  split; [exact Hbare|].
  apply Hchain; [reflexivity|].
  by apply (ParentGateway_fetched _ _ gatewayRef [] "infra").
Defined.

(** C8, as stated, fails: the first step of the chain finds the declared
    hostname, the fetch of the parent fails, and the URL is empty. *)
Lemma resolved_url_counterexample :
  foundHost routeHostnameAndParent (parentOf emptyCluster routeHostnameAndParent)
    routeHostnameAndParent = Some "grafana.example.com" ∧
  (getHttpRouteAdminURL emptyCluster routeHostnameAndParent
     (Some routeHostnameAndParent)).2 = Returned "" ∧
  ¬ (∀ (c : Cluster) (ingress route : RoutingObject) (url : string),
       (getHttpRouteAdminURL c ingress (Some route)).2 = Returned url →
       url = composeURL (foundHost route (parentOf c route) ingress)).
Proof.
  repeat split.
  intros Hclaim.
  specialize (Hclaim emptyCluster routeHostnameAndParent routeHostnameAndParent
                "" eq_refl).
  vm_compute in Hclaim. discriminate Hclaim.
Qed.

(** C10.  Endpoint resolution panics exactly when the route has a parent
    reference whose first entry has no namespace: with that input it
    dereferences a nil pointer, and with any other it returns. *)
Theorem nil_namespace_panics (c : Cluster) (ingress : RoutingObject)
    (httpRoute : option RoutingObject) :
  ((∃ route, httpRoute = Some route ∧ NilParentNamespace route) →
   getHttpRouteAdminURL c ingress httpRoute =
     ([], Panicked "nil pointer dereference")) ∧
  (¬ (∃ route, httpRoute = Some route ∧ NilParentNamespace route) →
   ∃ url, (getHttpRouteAdminURL c ingress httpRoute).2 = Returned url).
Proof.
  split.
  - intros (route & -> & Hnil).
    by apply getHttpRouteAdminURL_nil_namespace.
  - intros Hsafe. destruct httpRoute as [route|]; [|by exists ""].
    destruct (parent_cases c route) as [[gw Hgw]|[(nn & err & Hf)|Hnilns]].
    + eexists. by apply getHttpRouteAdminURL_parent.
    + exists "". by rewrite (getHttpRouteAdminURL_fetch_fails _ _ _ _ _ Hf).
    + destruct Hsafe. by exists route.
Qed.

Lemma nil_namespace_panics_witness :
  getHttpRouteAdminURL emptyCluster routeNilNamespace (Some routeNilNamespace) =
  ([], Panicked "nil pointer dereference").
Proof.
  apply (nil_namespace_panics emptyCluster routeNilNamespace
           (Some routeNilNamespace)).
  exists routeNilNamespace. split; [reflexivity|].
  exists (mkParentReference None "public-gateway"), []. split; reflexivity.
Defined.

(** ** The spec builder *)

Lemma wrap32_range (z : Z) : (- 2 ^ 31 <= wrap32 z < 2 ^ 31)%Z.
Proof.
  unfold wrap32.
  pose proof (Z.mod_pos_bound (z + 2 ^ 31) (2 ^ 32) ltac:(lia)). lia.
Qed.

Lemma wrap32_small (z : Z) : (- 2 ^ 31 <= z < 2 ^ 31)%Z → wrap32 z = z.
Proof.
  intros Hz. unfold wrap32. rewrite Z.mod_small by lia. lia.
Qed.

Lemma wrap32_idem (z : Z) : wrap32 (wrap32 z) = wrap32 z.
Proof. apply wrap32_small, wrap32_range. Qed.




(** ** The convergence of the routing object *)

Lemma sameDesired_refl (cr : Grafana) : sameDesired cr cr.
Proof. by repeat split. Qed.

Lemma sameDesired_trans (cr1 cr2 cr3 : Grafana) :
  sameDesired cr1 cr2 → sameDesired cr2 cr3 → sameDesired cr1 cr3.
Proof.
  unfold sameDesired. intros (?&?&?&?) (?&?&?&?). repeat split; congruence.
Qed.

Lemma sameDesired_setConditions (cr : Grafana) (conds : gmap string Condition) :
  sameDesired cr (setConditions cr conds).
Proof. by repeat split. Qed.

(** The closure changes the conditions of the resource and nothing else
    of it. *)
Lemma mutateIngress_sameDesired (h : Helpers) (o : RoutingObject)
    (cr : Grafana) (httpRoute : RoutingObject) :
  sameDesired cr (mutateIngress h o (cr, httpRoute)).1.1.1 ∧
  adminURLOf (mutateIngress h o (cr, httpRoute)).1.1.1 = adminURLOf cr.
Proof.
  unfold mutateIngress, Merge.
  destruct (merge h (obj_Spec o) _); simpl.
  - split; [apply sameDesired_setConditions|done].
  - destruct (SetControllerReference _ _); simpl;
      (split; [apply sameDesired_setConditions|done]).
Qed.

(** The closure keeps the identity and the status of the object. *)
Lemma mutateIngress_object (h : Helpers) (o : RoutingObject)
    (cr : Grafana) (httpRoute : RoutingObject) :
  let o' := (mutateIngress h o (cr, httpRoute)).1.2 in
  objectKey o' = objectKey o ∧ obj_LoadBalancer o' = obj_LoadBalancer o.
Proof.
  unfold mutateIngress, Merge, SetControllerReference.
  destruct (merge h (obj_Spec o) _); simpl; [done|].
  destruct (obj_Owner o); simpl; [|done].
  destruct (decide _); simpl; done.
Qed.

(** When the merge fails, the closure sets the condition and returns the
    error of the merge; the object is as it was. *)
Lemma mutateIngress_merge_fails (h : Helpers) (o : RoutingObject)
    (cr : Grafana) (httpRoute : RoutingObject) (err : error) :
  merge h (obj_Spec o) (gs_Ingress (cr_Spec cr)) = inl err →
  mutateIngress h o (cr, httpRoute) =
  ((setInvalidMergeCondition cr "Ingress" err,
    setSpec httpRoute (getIngressSpec h cr)), o, Some err).
Proof. intros Hmerge. unfold mutateIngress, Merge. by rewrite Hmerge. Qed.

(** A second run of the closure on its own result, for the same desired
    state, gives that result again. *)
Lemma mutateIngress_idempotent (h : Helpers) (o o' : RoutingObject)
    (cr cr' cr2 : Grafana) (hr hr' hr2 : RoutingObject) :
  MergeIdempotent h (gs_Ingress (cr_Spec cr)) →
  sameDesired cr cr2 →
  mutateIngress h o (cr, hr) = ((cr', hr'), o', None) →
  (mutateIngress h o' (cr2, hr2)).1.2 = o' ∧
  (mutateIngress h o' (cr2, hr2)).2 = None.
Proof.
  intros Hidem (Hns & Hname & Hlabels & Hspec).
  unfold mutateIngress, Merge, SetControllerReference. rewrite Hspec.
  destruct (merge h (obj_Spec o) _) as [e|s] eqn:Hmerge; simpl; [done|].
  apply Hidem in Hmerge.
  rewrite Hns, Hname, Hlabels.
  destruct (obj_Owner o) as [owner|] eqn:Howner; simpl.
  - destruct (decide (owner = _)) as [->|]; simpl; [|done].
    intros [= <- <- <-]. simpl. rewrite Hmerge. simpl. rewrite Howner.
    rewrite decide_True by done. simpl. split; [|done].
    unfold SetInheritedLabels, setLabels, setSpec. simpl.
    by rewrite (assoc_L (∪)), (idemp_L (∪)).
  - intros [= <- <- <-]. simpl. rewrite Hmerge. simpl.
    rewrite decide_True by done. simpl. split; [|done].
    unfold SetInheritedLabels, setLabels, setSpec, setOwner. simpl.
    by rewrite (assoc_L (∪)), (idemp_L (∪)).
Qed.

Lemma clientGet_putRoute (c : Cluster) (o : RoutingObject) :
  cl_routesDown c = None →
  clientGet (putRoute c o) (objectKey o) = inr o.
Proof.
  intros Hup. unfold clientGet, putRoute. simpl. rewrite Hup.
  by rewrite lookup_insert_eq.
Qed.

Lemma clientGet_inr (c : Cluster) (nn : NamespacedName) (o : RoutingObject) :
  clientGet c nn = inr o →
  cl_routesDown c = None ∧ cl_routes c !! nn = Some o.
Proof.
  unfold clientGet. destruct (cl_routesDown c); [done|].
  destruct (cl_routes c !! nn); [|done]. by intros [= ->].
Qed.

Lemma clientGet_not_found (c : Cluster) (nn : NamespacedName) (err : error) :
  clientGet c nn = inl err → IsNotFound err = true →
  cl_routesDown c = None ∧ cl_routes c !! nn = None.
Proof.
  unfold clientGet. destruct (cl_routesDown c); [by intros [= <-]|].
  destruct (cl_routes c !! nn); done.
Qed.

(** The upsert changes the conditions of the resource and nothing else of
    it. *)
Lemma converge_sameDesired (h : Helpers) (c : Cluster)
    (ingress : RoutingObject) (cr : Grafana) :
  sameDesired cr (up_captured (converge h c ingress cr)).1 ∧
  adminURLOf (up_captured (converge h c ingress cr)).1 = adminURLOf cr.
Proof.
  unfold converge, CreateOrUpdate.
  destruct (clientGet c (objectKey ingress)) as [err|existing].
  - destruct (IsNotFound err); [|split; [apply sameDesired_refl|done]].
    pose proof (mutateIngress_sameDesired h ingress cr
                  (GetGrafanaHttpRoute h cr)) as Hsame.
    destruct (mutateIngress h ingress _) as [[[cr' hr'] o'] [e|]]; simpl in *;
      [done|].
    destruct (clientCreate c o'); done.
  - pose proof (mutateIngress_sameDesired h existing cr
                  (GetGrafanaHttpRoute h cr)) as Hsame.
    destruct (mutateIngress h existing _) as [[[cr' hr'] o'] [e|]]; simpl in *;
      [done|].
    destruct (decide (existing = o')); [done|].
    destruct (clientUpdate c o'); done.
Qed.

(** After an upsert without error, the cluster holds the object that the
    upsert leaves, and that object is a result of the closure. *)
Lemma converge_live (h : Helpers) (c : Cluster) (ingress : RoutingObject)
    (cr : Grafana) :
  wfCluster c →
  up_err (converge h c ingress cr) = None →
  clientGet (up_cluster (converge h c ingress cr)) (objectKey ingress) =
    inr (up_obj (converge h c ingress cr)) ∧
  ∃ base hr cr' hr',
    mutateIngress h base (cr, hr) =
    ((cr', hr'), up_obj (converge h c ingress cr), None).
Proof.
  intros Hwf. unfold converge, CreateOrUpdate.
  destruct (clientGet c (objectKey ingress)) as [err|existing] eqn:Hget.
  - destruct (IsNotFound err) eqn:Hnf; [|done].
    destruct (clientGet_not_found _ _ _ Hget Hnf) as [Hup Hnone].
    pose proof (mutateIngress_object h ingress cr (GetGrafanaHttpRoute h cr))
      as [Hkey _].
    destruct (mutateIngress h ingress _) as [[[cr' hr'] o'] [e|]] eqn:Hmut;
      simpl in *; [done|].
    unfold clientCreate. rewrite Hup, Hkey, Hnone. simpl. intros _. split.
    + rewrite <- Hkey. by apply clientGet_putRoute.
    + by exists ingress, (GetGrafanaHttpRoute h cr), cr', hr'.
  - destruct (clientGet_inr _ _ _ Hget) as [Hup Hsome].
    pose proof (mutateIngress_object h existing cr (GetGrafanaHttpRoute h cr))
      as [Hkey _].
    pose proof (Hwf _ _ Hsome) as Hstored. simpl in Hstored.
    destruct (mutateIngress h existing _) as [[[cr' hr'] o'] [e|]] eqn:Hmut;
      simpl in *; [done|].
    destruct (decide (existing = o')) as [<-|Hne]; simpl.
    + intros _. split; [done|].
      by exists existing, (GetGrafanaHttpRoute h cr), cr', hr'.
    + unfold clientUpdate. rewrite Hup, Hkey, Hstored, Hsome. simpl.
      intros _. split.
      * rewrite <- Hstored, <- Hkey. by apply clientGet_putRoute.
      * by exists existing, (GetGrafanaHttpRoute h cr), cr', hr'.
Qed.

(** C9.  Convergence is idempotent.  After a convergence without error, a
    second one for the same desired state finds the converged object, the
    closure of the upsert reproduces it, and the upsert writes nothing: its
    result is [OperationResultNone] and the cluster is as it was.  The
    cluster stores every object under its own identity, and the merge of the
    override is idempotent. *)
Theorem converge_idempotent (h : Helpers) (c : Cluster)
    (ingress ingress2 : RoutingObject) (cr cr2 : Grafana) :
  wfCluster c →
  MergeIdempotent h (gs_Ingress (cr_Spec cr)) →
  up_err (converge h c ingress cr) = None →
  objectKey ingress2 = objectKey ingress →
  sameDesired cr cr2 →
  let up1 := converge h c ingress cr in
  let up2 := converge h (up_cluster up1) ingress2 cr2 in
  sameDesired cr (up_captured up1).1 ∧
  up_err up2 = None ∧
  up_result up2 = OperationResultNone ∧
  up_cluster up2 = up_cluster up1 ∧
  up_obj up2 = up_obj up1.
Proof.
  intros Hwf Hidem Herr Hkey Hsame up1 up2.
  split; [apply converge_sameDesired|].
  destruct (converge_live h c ingress cr Hwf Herr)
    as (Hget & base & hr & cr' & hr' & Hmut).
  fold up1 in Hget, Hmut.
  pose proof (mutateIngress_idempotent h base (up_obj up1) cr cr' cr2 hr hr'
                (GetGrafanaHttpRoute h cr2) Hidem Hsame Hmut) as [Hobj Hnone].
  subst up2. unfold converge, CreateOrUpdate.
  rewrite Hkey, Hget.
  destruct (mutateIngress h (up_obj up1) _) as [[[cr3 hr3] o3] ferr].
  simpl in Hobj, Hnone. subst o3 ferr.
  by rewrite decide_True.
Qed.

Lemma sampleMergeFields_inr (fields : RawFragment) :
  ∀ s s', sampleMergeFields s fields = inr s' →
    spec_ParentRefs s' = spec_ParentRefs s ∧
    spec_Rules s' = spec_Rules s ∧
    (fields = [] → s' = s) ∧
    (∀ s2, spec_ParentRefs s2 = spec_ParentRefs s →
           spec_Rules s2 = spec_Rules s → fields ≠ [] →
           sampleMergeFields s2 fields = inr s').
Proof.
  induction fields as [|[k v] rest IH]; intros s s'; simpl.
  - intros [= <-]. done.
  - destruct (decide (k = "hostname")); [|done]. intros Hrest.
    destruct (IH _ _ Hrest) as (Hrefs & Hrules & _ & _). simpl in *.
    repeat split; [done..|].
    intros s2 Hrefs2 Hrules2 _. by rewrite Hrefs2, Hrules2.
Qed.

Lemma sampleMerge_idempotent (override : option RawFragment) :
  MergeIdempotent sampleHelpers override.
Proof.
  intros s s'. destruct override as [fields|]; simpl; [|by intros [= <-]].
  intros Hmerge.
  destruct (sampleMergeFields_inr _ _ _ Hmerge) as (Hrefs & Hrules & Hnil & Hsame).
  destruct fields as [|field rest]; [by rewrite (Hnil eq_refl) in *|].
  by apply Hsame.
Qed.

Lemma converge_idempotent_witness :
  up_result convergedOnce = OperationResultCreated ∧
  (up_err convergedTwice = None ∧
   up_result convergedTwice = OperationResultNone ∧
   up_cluster convergedTwice = up_cluster convergedOnce ∧
   up_obj convergedTwice = up_obj convergedOnce).
Proof.
  split; [reflexivity|].
  apply (converge_idempotent sampleHelpers emptyCluster newIngress newIngress
           hostnameOverride (up_captured convergedOnce).1).
  - apply map_Forall_empty.
  - apply sampleMerge_idempotent.
  - reflexivity.
  - reflexivity.
  - repeat split.
Defined.

(** ** The reconcile step *)

(** C5.  When the merge of the override fails, for a resource that asks
    for the route and a cluster that answers the lookup of the routing
    object: the reconcile returns stage Failed with the error of the merge,
    which is the error of the upsert; the condition [InvalidMerge] of the
    resource is set, with the text of the error; nothing is written, the
    cluster is as it was. *)
Theorem merge_failure_reported (h : Helpers) (c : Cluster)
    (ingress : RoutingObject) (cr : Grafana) (err : error) :
  gs_HttpRoute (cr_Spec cr) ≠ None →
  cl_routesDown c = None →
  merge h (obj_Spec (fetchedOrNew c ingress)) (gs_Ingress (cr_Spec cr)) =
    inl err →
  let r := reconcileIngress h c ingress cr in
  up_err (converge h c ingress cr) = Some err ∧
  up_result (converge h c ingress cr) = OperationResultNone ∧
  rec_outcome r = Returned (OperatorStageResultFailed, Some err) ∧
  st_Conditions (cr_Status (rec_cr r)) !! "InvalidMerge" =
    Some (mkCondition true "Ingress" (Error err)) ∧
  rec_cluster r = c.
Proof.
  intros Hroute Hup Hmerge r.
  assert (Hconv : converge h c ingress cr =
            mkUpserted c (fetchedOrNew c ingress)
              (setInvalidMergeCondition cr "Ingress" err,
               setSpec (GetGrafanaHttpRoute h cr) (getIngressSpec h cr))
              OperationResultNone (Some err)).
  { unfold converge, CreateOrUpdate, clientGet, fetchedOrNew in *.
    rewrite Hup.
    destruct (cl_routes c !! objectKey ingress) as [existing|];
      simpl in Hmerge;
      by rewrite (mutateIngress_merge_fails _ _ _ _ _ Hmerge). }
  subst r. unfold reconcileIngress.
  destruct (gs_HttpRoute (cr_Spec cr)); [|done].
  rewrite Hconv. simpl. repeat split; try done.
  by rewrite lookup_insert_eq.
Qed.

Lemma merge_failure_reported_witness :
  rec_outcome invalidOverrideReconciled =
    Returned (OperatorStageResultFailed, Some (MergeError "unknown field tls")) ∧
  st_Conditions (cr_Status (rec_cr invalidOverrideReconciled)) !! "InvalidMerge" =
    Some (mkCondition true "Ingress" "unknown field tls") ∧
  rec_cluster invalidOverrideReconciled = clusterWithAddress.
Proof.
  destruct (merge_failure_reported sampleHelpers clusterWithAddress
              newIngress (sampleGrafana (Some [("tls", "true")]) true "")
              (MergeError "unknown field tls"))
    as (_ & _ & Hstage & Hcond & Hcluster).
  - discriminate.
  - reflexivity.
  - reflexivity.
  - repeat split; assumption.
Defined.

(** The upsert leaves the load-balancer status of the object it found, or
    of the new object. *)
Lemma converge_loadBalancer (h : Helpers) (c : Cluster)
    (ingress : RoutingObject) (cr : Grafana) :
  up_err (converge h c ingress cr) = None →
  obj_LoadBalancer (up_obj (converge h c ingress cr)) =
  obj_LoadBalancer (fetchedOrNew c ingress).
Proof.
  unfold converge, CreateOrUpdate, fetchedOrNew.
  destruct (clientGet c (objectKey ingress)) as [err|existing] eqn:Hget.
  - destruct (IsNotFound err) eqn:Hnf; [|done].
    destruct (clientGet_not_found _ _ _ Hget Hnf) as [_ ->].
    pose proof (mutateIngress_object h ingress cr (GetGrafanaHttpRoute h cr))
      as [_ Hlb].
    destruct (mutateIngress h ingress _) as [[[cr' hr'] o'] [e|]];
      simpl in *; [done|].
    by destruct (clientCreate c o').
  - destruct (clientGet_inr _ _ _ Hget) as [_ ->].
    pose proof (mutateIngress_object h existing cr (GetGrafanaHttpRoute h cr))
      as [_ Hlb].
    destruct (mutateIngress h existing _) as [[[cr' hr'] o'] [e|]];
      simpl in *; [done|].
    destruct (decide (existing = o')); [done|].
    by destruct (clientUpdate c o').
Qed.

(** X6.  Whatever the input, the reconcile reports InProgress only for a
    resource that prefers this exposure mode and a routing object with an
    empty load-balancer status. *)
Lemma inProgress_only_if_empty (h : Helpers) (c : Cluster)
    (ingress : RoutingObject) (cr : Grafana) :
  stageOf (reconcileIngress h c ingress cr) =
    Some OperatorStageResultInProgress →
  PreferIngress cr = true ∧
  obj_LoadBalancer (rec_ingress (reconcileIngress h c ingress cr)) = [].
Proof.
  pose proof (converge_sameDesired h c ingress cr) as ((_ & _ & _ & Hspec) & _).
  unfold reconcileIngress, stageOf, PreferIngress.
  destruct (gs_HttpRoute (cr_Spec cr)); [|done].
  destruct (up_err (converge h c ingress cr)); [done|].
  rewrite Hspec. destruct (gs_PreferIngress (cr_Spec cr)); [|done].
  destruct (getHttpRouteAdminURL (up_cluster (converge h c ingress cr))
              (up_obj (converge h c ingress cr))
              (Some (up_obj (converge h c ingress cr))))
    as [evs [url|reason]]; [|done].
  destruct (decide (length _ = 0)) as [Hlen|]; simpl.
  - intros _. split; [done|]. by apply length_zero_iff_nil.
  - by destruct (decide (url = "")).
Qed.

(** C4.  The resource asks for the route and prefers this exposure mode,
    the upsert has succeeded and endpoint resolution returns [url].  When the
    load-balancer status of the routing object is empty, the reconcile
    returns stage InProgress with a non-empty message and leaves the admin
    URL of the resource as it was.  When the status is populated and [url] is
    empty, the reconcile returns stage Failed.  The stage is InProgress
    exactly when the status is empty, and Failed exactly when it is populated
    and [url] is empty. *)
Theorem readiness_policy (h : Helpers) (c : Cluster) (ingress : RoutingObject)
    (cr : Grafana) (evs : list Event) (url : string) :
  gs_HttpRoute (cr_Spec cr) ≠ None →
  PreferIngress cr = true →
  up_err (converge h c ingress cr) = None →
  let up := converge h c ingress cr in
  getHttpRouteAdminURL (up_cluster up) (up_obj up) (Some (up_obj up)) =
    (evs, Returned url) →
  let r := reconcileIngress h c ingress cr in
  let lbs := obj_LoadBalancer (up_obj up) in
  lbs = obj_LoadBalancer (fetchedOrNew c ingress) ∧
  (lbs = [] →
     (∃ err, rec_outcome r = Returned (OperatorStageResultInProgress, Some err) ∧
             Error err ≠ "") ∧
     adminURLOf (rec_cr r) = adminURLOf cr) ∧
  (lbs ≠ [] → url = "" →
     ∃ err, rec_outcome r = Returned (OperatorStageResultFailed, Some err)) ∧
  (stageOf r = Some OperatorStageResultInProgress ↔ lbs = []) ∧
  (stageOf r = Some OperatorStageResultFailed ↔ lbs ≠ [] ∧ url = "").
Proof.
  intros Hroute Hprefer Herr up Hurl r lbs. subst up r.
  pose proof (converge_sameDesired h c ingress cr)
    as ((_ & _ & _ & Hspec) & Hadmin).
  split; [by apply converge_loadBalancer|].
  unfold reconcileIngress, stageOf.
  destruct (gs_HttpRoute (cr_Spec cr)); [|done].
  rewrite Herr. unfold PreferIngress in *. rewrite Hspec, Hprefer.
  rewrite Hurl. fold lbs.
  destruct (decide (length lbs = 0)) as [Hlen|Hlen]; simpl.
  - apply length_zero_iff_nil in Hlen. repeat split; try done.
    + eexists. split; [reflexivity|done].
    + by intros [? _].
  - assert (lbs ≠ []) by (by intros Hnil; rewrite Hnil in Hlen).
    destruct (decide (url = "")) as [->|Hne]; simpl.
    + repeat split; try done. intros _ _. by eexists.
    + repeat split; try done. by intros [_ ?].
Qed.

Lemma readiness_policy_witness :
  (∃ err, rec_outcome notReadyReconciled =
            Returned (OperatorStageResultInProgress, Some err) ∧
          Error err ≠ "") ∧
  adminURLOf (rec_cr notReadyReconciled) = "http://grafana-service:3000".
Proof.
  destruct (readiness_policy sampleHelpers (clusterWithRoute (liveRoute []))
              newIngress (sampleGrafana None true "http://grafana-service:3000")
              [] "")
    as (_ & Hempty & _).
  - discriminate.
  - reflexivity.
  - reflexivity.
  - reflexivity.
  - apply Hempty. reflexivity.
Defined.

(** C6, as amended.  When the reconcile completes with stage Success, it
    returns no error.  If the resource asks for the route and prefers this
    exposure mode, the URL that endpoint resolution returns for the converged
    object is not empty and is the admin URL of the resource afterwards.  If
    the resource does not ask for the route, or does not prefer this exposure
    mode, the admin URL of the resource is left as it was. *)
Theorem adminURL_written (h : Helpers) (c : Cluster) (ingress : RoutingObject)
    (cr : Grafana) (e : option error) :
  let r := reconcileIngress h c ingress cr in
  rec_outcome r = Returned (OperatorStageResultSuccess, e) →
  e = None ∧
  (gs_HttpRoute (cr_Spec cr) ≠ None ∧ PreferIngress cr = true →
     ∃ url, url ≠ "" ∧
            (getHttpRouteAdminURL (rec_cluster r) (rec_ingress r)
               (Some (rec_ingress r))).2 = Returned url ∧
            adminURLOf (rec_cr r) = url) ∧
  (gs_HttpRoute (cr_Spec cr) = None ∨ PreferIngress cr = false →
     adminURLOf (rec_cr r) = adminURLOf cr).
Proof.
  intros r. subst r.
  pose proof (converge_sameDesired h c ingress cr)
    as ((_ & _ & _ & Hspec) & Hadmin).
  unfold reconcileIngress, PreferIngress.
  destruct (gs_HttpRoute (cr_Spec cr)) as [frag|].
  2:{ intros [= <-]. split; [done|]. split; [by intros [? _]|done]. }
  destruct (up_err (converge h c ingress cr)); [done|].
  rewrite Hspec.
  destruct (gs_PreferIngress (cr_Spec cr)).
  2:{ intros [= <-]. split; [done|]. split; [by intros [_ ?]|done]. }
  destruct (getHttpRouteAdminURL (up_cluster (converge h c ingress cr))
              (up_obj (converge h c ingress cr))
              (Some (up_obj (converge h c ingress cr))))
    as [evs [url|reason]] eqn:Hurl; [|done].
  destruct (decide (length _ = 0)); [done|].
  destruct (decide (url = "")); [done|].
  intros [= <-]. split; [done|]. split.
  - intros _. exists url. cbn [rec_cluster rec_ingress rec_cr].
    by rewrite Hurl.
  - intros [?|?]; done.
Qed.

Lemma adminURL_written_witness :
  ∃ url, url ≠ "" ∧
         (getHttpRouteAdminURL (rec_cluster preferredReconciled)
            (rec_ingress preferredReconciled)
            (Some (rec_ingress preferredReconciled))).2 = Returned url ∧
         adminURLOf (rec_cr preferredReconciled) = url.
Proof.
  destruct (adminURL_written sampleHelpers clusterWithAddress
              newIngress (sampleGrafana None true "") None eq_refl)
    as (_ & Hwritten & _).
  apply Hwritten. split; [discriminate|reflexivity].
Defined.

(** C6, as stated, fails: a resource that does not prefer this exposure
    mode and already has an admin URL.  The reconcile completes with stage
    Success; endpoint resolution is not run, and the admin URL is neither the
    URL that it would return nor empty: it is left as it was. *)
Lemma adminURL_written_counterexample :
  rec_outcome notPreferredReconciled =
    Returned (OperatorStageResultSuccess, None) ∧
  adminURLOf (rec_cr notPreferredReconciled) = "http://grafana-service:3000" ∧
  (getHttpRouteAdminURL (rec_cluster notPreferredReconciled)
     (rec_ingress notPreferredReconciled)
     (Some (rec_ingress notPreferredReconciled))).2 =
    Returned "http://lb.example.com" ∧
  ¬ (∀ (h : Helpers) (c : Cluster) (ingress : RoutingObject) (cr : Grafana)
       (e : option error),
       let r := reconcileIngress h c ingress cr in
       rec_outcome r = Returned (OperatorStageResultSuccess, e) →
       (getHttpRouteAdminURL (rec_cluster r) (rec_ingress r)
          (Some (rec_ingress r))).2 = Returned (adminURLOf (rec_cr r)) ∨
       (PreferIngress cr = false ∧ adminURLOf (rec_cr r) = "")).
Proof.
  repeat split.
  intros Hclaim.
  destruct (Hclaim sampleHelpers
              (clusterWithRoute
                 (liveRoute [mkLoadBalancerIngress "" "lb.example.com"]))
              newIngress (sampleGrafana None false "http://grafana-service:3000")
              None eq_refl) as [Hurl|[_ Hempty]].
  - vm_compute in Hurl. discriminate Hurl.
  - vm_compute in Hempty. discriminate Hempty.
Qed.

(** * Further properties *)

(** ** The endpoint resolver: priorities, requests, provenance *)

Lemma firstNonEmpty_skip (pre post : list string) (x : string) :
  Forall (λ s, s = "") pre → x ≠ "" →
  firstNonEmpty (pre ++ x :: post)%list = Some x.
Proof.
  intros Hpre Hx. induction Hpre as [|y pre Hy _ IH]; simpl.
  - rewrite firstNonEmpty_cons. by rewrite decide_True.
  - rewrite firstNonEmpty_cons. by rewrite decide_False by naive_solver.
Qed.

Lemma firstNonEmpty_elem_of (l : list string) (s : string) :
  firstNonEmpty l = Some s → s ∈ l.
Proof.
  unfold firstNonEmpty. intros Hhead.
  apply head_Some_elem_of, list_elem_of_filter in Hhead. tauto.
Qed.

Lemma lastNonEmpty_elem_of (l : list string) (s : string) :
  lastNonEmpty l = Some s → s ∈ l.
Proof.
  unfold lastNonEmpty. intros Hlast.
  apply last_Some_elem_of, list_elem_of_filter in Hlast. tauto.
Qed.

(** X1.  The address of the gateway comes before the load-balancer status:
    for a route without a declared hostname whose gateway was fetched, the
    URL is that of the first address of the gateway with a value, whatever
    the load-balancer status holds. *)
Theorem gateway_address_preferred (c : Cluster) (ingress route : RoutingObject)
    (gw : Gateway) (pre post : list GatewayStatusAddress)
    (a : GatewayStatusAddress) :
  explicitHostname route = "" →
  ParentGateway c route gw →
  gw_Addresses gw = (pre ++ a :: post)%list →
  Forall (λ x, addr_Value x = "") pre →
  addr_Value a ≠ "" →
  (getHttpRouteAdminURL c ingress (Some route)).2 =
  Returned ("http://" +:+ addr_Value a).
Proof.
  intros Hex Hparent Haddrs Hpre Ha.
  rewrite (getHttpRouteAdminURL_parent _ _ _ _ Hparent).
  unfold foundHost. rewrite Hex, Haddrs, fmap_app, fmap_cons.
  rewrite (firstNonEmpty_skip _ _ (addr_Value a)); [done| |done].
  by apply Forall_fmap.
Qed.

Lemma gateway_address_preferred_witness :
  (getHttpRouteAdminURL (clusterWithGateway [""; "203.0.113.7"; "203.0.113.8"])
     lbIPThenHostname (Some routeParentOnly)).2 =
  Returned "http://203.0.113.7".
Proof.
  apply (gateway_address_preferred
           (clusterWithGateway [""; "203.0.113.7"; "203.0.113.8"])
           lbIPThenHostname routeParentOnly
           (mkGateway [mkListener "http"]
              (mkGatewayStatusAddress <$> [""; "203.0.113.7"; "203.0.113.8"]))
           [mkGatewayStatusAddress ""] [mkGatewayStatusAddress "203.0.113.8"]
           (mkGatewayStatusAddress "203.0.113.7")).
  - reflexivity.
  - by apply (ParentGateway_fetched _ _ gatewayRef [] "infra").
  - reflexivity.
  - by repeat constructor.
  - discriminate.
Defined.

(** X2.  The resolver sends at most one request to the store, for the
    gateway of the first parent reference, and writes to the log only when
    that request fails: its events are none, the request, or the request
    followed by the log line of its error. *)
Theorem resolver_events (c : Cluster) (ingress : RoutingObject)
    (httpRoute : option RoutingObject) :
  (getHttpRouteAdminURL c ingress httpRoute).1 = [] ∨
  ∃ route nn,
    httpRoute = Some route ∧ firstParentKey route = Some nn ∧
    ((∃ gw, clientGetGateway c nn = inr gw ∧
        (getHttpRouteAdminURL c ingress httpRoute).1 = [EvGetGateway nn]) ∨
     (∃ err, clientGetGateway c nn = inl err ∧
        (getHttpRouteAdminURL c ingress httpRoute).1 =
        [EvGetGateway nn;
         EvLogError err "error synchronizing grafana statuses"])).
Proof.
  destruct httpRoute as [route|]; [|by left].
  unfold getHttpRouteAdminURL.
  destruct (spec_ParentRefs (obj_Spec route)) as [|pr rest] eqn:Hrefs;
    [by left|].
  destruct (pr_Namespace pr) as [ns|] eqn:Hns; [|by left].
  right. exists route, (ns, pr_Name pr). split; [done|]. split.
  { unfold firstParentKey. by rewrite Hrefs, Hns. }
  destruct (clientGetGateway c (ns, pr_Name pr)) as [err|gw] eqn:Hget.
  - right. by exists err.
  - left. by exists gw.
Qed.

(** X3.  The resolver reads the first hostname and the first parent
    reference of the route, and the load-balancer status of [ingress]; the
    other hostnames, the other parent references and the other fields of the
    two objects do not change its result. *)
Theorem resolver_reads_first_entries (c : Cluster)
    (ingress ingress' route route' : RoutingObject) :
  head (spec_Hostnames (obj_Spec route)) =
    head (spec_Hostnames (obj_Spec route')) →
  head (spec_ParentRefs (obj_Spec route)) =
    head (spec_ParentRefs (obj_Spec route')) →
  obj_LoadBalancer ingress = obj_LoadBalancer ingress' →
  getHttpRouteAdminURL c ingress (Some route) =
  getHttpRouteAdminURL c ingress' (Some route').
Proof.
  intros Hhosts Hrefs Hlbs.
  unfold getHttpRouteAdminURL, adminURLFrom. rewrite Hlbs.
  destruct (spec_Hostnames (obj_Spec route)) as [|h hs],
           (spec_Hostnames (obj_Spec route')) as [|h' hs'];
    simplify_eq/=;
    destruct (spec_ParentRefs (obj_Spec route)) as [|pr prs],
             (spec_ParentRefs (obj_Spec route')) as [|pr' prs'];
    simplify_eq/=; done.
Qed.

Lemma resolver_reads_first_entries_witness :
  getHttpRouteAdminURL (clusterWithGateway ["203.0.113.7"]) lbTwoIPs
    (Some wideRoute) =
  getHttpRouteAdminURL (clusterWithGateway ["203.0.113.7"])
    (liveRoute (obj_LoadBalancer lbTwoIPs)) (Some (routeWith [gatewayRef] [""] [])).
Proof.
  apply (resolver_reads_first_entries (clusterWithGateway ["203.0.113.7"])
           lbTwoIPs (liveRoute (obj_LoadBalancer lbTwoIPs)) wideRoute
           (routeWith [gatewayRef] [""] []));
    reflexivity.
Defined.

(** X4.  Of the cluster, the resolver sees what the fetch of a gateway
    answers, and of a gateway its addresses: with two clusters whose answers
    agree on the error or on the addresses, whatever their listeners and
    their routing objects, the resolver does the same and returns the same
    URL.  The listeners never change the protocol. *)
Theorem resolver_sees_addresses_only (c c' : Cluster) (ingress : RoutingObject)
    (httpRoute : option RoutingObject) :
  (∀ nn, sameFetch (clientGetGateway c nn) (clientGetGateway c' nn)) →
  getHttpRouteAdminURL c ingress httpRoute =
  getHttpRouteAdminURL c' ingress httpRoute.
Proof.
  intros Hsame. destruct httpRoute as [route|]; [|done].
  unfold getHttpRouteAdminURL.
  destruct (spec_ParentRefs (obj_Spec route)) as [|pr rest]; [done|].
  destruct (pr_Namespace pr) as [ns|]; [|done].
  specialize (Hsame (ns, pr_Name pr)). unfold sameFetch in Hsame.
  destruct (clientGetGateway c (ns, pr_Name pr)) as [err|gw],
           (clientGetGateway c' (ns, pr_Name pr)) as [err'|gw']; try done.
  - by subst err'.
  - unfold adminURLFrom. by rewrite !scanListeners_id, Hsame.
Qed.

Lemma resolver_sees_addresses_only_witness :
  getHttpRouteAdminURL (clusterWithGateway ["203.0.113.7"]) lbTwoIPs
    (Some routeParentOnly) =
  getHttpRouteAdminURL clusterOtherListeners lbTwoIPs (Some routeParentOnly).
Proof.
  apply (resolver_sees_addresses_only (clusterWithGateway ["203.0.113.7"])
           clusterOtherListeners lbTwoIPs (Some routeParentOnly)).
  intros nn. unfold clientGetGateway, clusterWithGateway, clusterOtherListeners.
  simpl. destruct (decide (nn = ("infra", "public-gateway"))) as [->|Hne].
  - rewrite !lookup_singleton_eq. reflexivity.
  - rewrite !lookup_singleton_ne by done. reflexivity.
Defined.

(** X5.  The resolver does not make up a host.  A URL that is not empty is
    ["http://"] followed by a non-empty host, and the host is the first
    hostname of the route, the value of an address of the fetched gateway, or
    a hostname or an IP of the load-balancer status. *)
Theorem resolved_host_provenance (c : Cluster) (ingress route : RoutingObject)
    (url : string) :
  (getHttpRouteAdminURL c ingress (Some route)).2 = Returned url →
  url ≠ "" →
  ∃ host,
    url = "http://" +:+ host ∧ host ≠ "" ∧
    (head (spec_Hostnames (obj_Spec route)) = Some host ∨
     (∃ gw, ParentGateway c route gw ∧
            host ∈ addr_Value <$> gw_Addresses gw) ∨
     host ∈ lb_Hostname <$> obj_LoadBalancer ingress ∨
     host ∈ lb_IP <$> obj_LoadBalancer ingress).
Proof.
  intros Hurl Hne.
  destruct (parent_cases c route) as [[gw Hgw]|[(nn & err & Hf)|Hnil]].
  - rewrite (getHttpRouteAdminURL_parent _ _ _ _ Hgw) in Hurl.
    injection Hurl as <-.
    destruct (foundHost route gw ingress) as [host|] eqn:Hhost; [|done].
    exists host. split; [done|]. split; [by eapply foundHost_nonempty|].
    unfold foundHost, lbHost, orElse in Hhost.
    rewrite firstNonEmpty_cons in Hhost.
    destruct (decide (explicitHostname route ≠ "")) as [Hex|_].
    { left. injection Hhost as <-. unfold explicitHostname in *.
      by destruct (head _). }
    change (firstNonEmpty []) with (@None string) in Hhost.
    destruct (firstNonEmpty (addr_Value <$> _)) eqn:Haddr.
    { right. left. exists gw. split; [done|]. injection Hhost as <-.
      by apply firstNonEmpty_elem_of. }
    destruct (firstNonEmpty (lb_Hostname <$> _)) eqn:Hlbh.
    { right. right. left. injection Hhost as <-.
      by apply firstNonEmpty_elem_of. }
    right. right. right. by apply lastNonEmpty_elem_of.
  - rewrite (getHttpRouteAdminURL_fetch_fails _ _ _ _ _ Hf) in Hurl.
    simpl in Hurl. congruence.
  - rewrite (getHttpRouteAdminURL_nil_namespace _ _ _ Hnil) in Hurl.
    discriminate Hurl.
Qed.

Lemma resolved_host_provenance_witness :
  ∃ host,
    "http://10.0.0.2" = "http://" +:+ host ∧ host ≠ "" ∧
    (head (spec_Hostnames (obj_Spec lbTwoIPs)) = Some host ∨
     (∃ gw, ParentGateway emptyCluster lbTwoIPs gw ∧
            host ∈ addr_Value <$> gw_Addresses gw) ∨
     host ∈ lb_Hostname <$> obj_LoadBalancer lbTwoIPs ∨
     host ∈ lb_IP <$> obj_LoadBalancer lbTwoIPs).
Proof.
  apply (resolved_host_provenance emptyCluster lbTwoIPs lbTwoIPs
           "http://10.0.0.2").
  - reflexivity.
  - discriminate.
Defined.

(** ** The reconcile step: stages, errors and what is left untouched *)

Lemma inProgress_only_if_empty_witness :
  PreferIngress (sampleGrafana None true "http://grafana-service:3000") = true ∧
  obj_LoadBalancer (rec_ingress notReadyReconciled) = [].
Proof.
  apply (inProgress_only_if_empty sampleHelpers (clusterWithRoute (liveRoute []))
           newIngress (sampleGrafana None true "http://grafana-service:3000")).
  reflexivity.
Defined.

(** The closure and the upsert leave the conditions other than
    [InvalidMerge] as they were. *)
Lemma converge_conditions (h : Helpers) (c : Cluster) (ingress : RoutingObject)
    (cr : Grafana) (k : string) :
  k ≠ "InvalidMerge" →
  st_Conditions (cr_Status (up_captured (converge h c ingress cr)).1) !! k =
  st_Conditions (cr_Status cr) !! k.
Proof.
  intros Hk.
  assert (Hmut : ∀ o hr,
            st_Conditions (cr_Status (mutateIngress h o (cr, hr)).1.1.1) !! k =
            st_Conditions (cr_Status cr) !! k).
  { intros o hr. unfold mutateIngress, Merge.
    destruct (merge h (obj_Spec o) _); simpl.
    - by rewrite lookup_insert_ne.
    - destruct (SetControllerReference _ _); simpl;
        by rewrite lookup_delete_ne. }
  unfold converge, CreateOrUpdate.
  destruct (clientGet c (objectKey ingress)) as [err|existing].
  - destruct (IsNotFound err); [|done].
    specialize (Hmut ingress (GetGrafanaHttpRoute h cr)).
    destruct (mutateIngress h ingress _) as [[[cr' hr'] o'] [e|]]; simpl in *;
      [done|].
    by destruct (clientCreate c o').
  - specialize (Hmut existing (GetGrafanaHttpRoute h cr)).
    destruct (mutateIngress h existing _) as [[[cr' hr'] o'] [e|]]; simpl in *;
      [done|].
    destruct (decide (existing = o')); [done|].
    by destruct (clientUpdate c o').
Qed.

(** The resource that a reconcile leaves is the one that the upsert leaves,
    but for the admin URL. *)
Lemma reconcileIngress_cr (h : Helpers) (c : Cluster) (ingress : RoutingObject)
    (cr : Grafana) :
  rec_cr (reconcileIngress h c ingress cr) = cr ∨
  rec_cr (reconcileIngress h c ingress cr) =
    (up_captured (converge h c ingress cr)).1 ∨
  ∃ url, rec_cr (reconcileIngress h c ingress cr) =
           setAdminURL (up_captured (converge h c ingress cr)).1 url.
Proof.
  unfold reconcileIngress.
  destruct (gs_HttpRoute (cr_Spec cr)); [|by left].
  destruct (up_err (converge h c ingress cr)); [by right; left|].
  destruct (PreferIngress _); [|by right; left].
  destruct (getHttpRouteAdminURL (up_cluster (converge h c ingress cr))
              (up_obj (converge h c ingress cr))
              (Some (up_obj (converge h c ingress cr))))
    as [evs [url|reason]]; [|by right; left].
  destruct (decide (length _ = 0)); [by right; left|].
  destruct (decide (url = "")); [by right; left|].
  right. right. by exists url.
Qed.

(** X7.  A reconcile that returns gives an error exactly when its stage is
    not Success: Success comes with no error, InProgress and Failed with
    one. *)
Theorem reconcile_error_iff_not_success (h : Helpers) (c : Cluster)
    (ingress : RoutingObject) (cr : Grafana) (stage : OperatorStageStatus)
    (e : option error) :
  rec_outcome (reconcileIngress h c ingress cr) = Returned (stage, e) →
  (e = None ↔ stage = OperatorStageResultSuccess).
Proof.
  unfold reconcileIngress.
  destruct (gs_HttpRoute (cr_Spec cr)); [|by intros [= <- <-]].
  destruct (up_err (converge h c ingress cr)); [by intros [= <- <-]|].
  destruct (PreferIngress _); [|by intros [= <- <-]].
  destruct (getHttpRouteAdminURL (up_cluster (converge h c ingress cr))
              (up_obj (converge h c ingress cr))
              (Some (up_obj (converge h c ingress cr))))
    as [evs [url|reason]]; [|done].
  destruct (decide (length _ = 0)); [by intros [= <- <-]|].
  destruct (decide (url = "")); by intros [= <- <-].
Qed.

Lemma reconcile_error_iff_not_success_witness :
  Some (MergeError "unknown field tls") = None ↔
  OperatorStageResultFailed = OperatorStageResultSuccess.
Proof.
  apply (reconcile_error_iff_not_success sampleHelpers clusterWithAddress
           newIngress (sampleGrafana (Some [("tls", "true")]) true "")).
  reflexivity.
Defined.

(** X8.  The admin URL of the resource is written by a Success only: after
    a reconcile that reports InProgress or Failed, or that panics, it is as
    it was before. *)
Theorem adminURL_kept_unless_success (h : Helpers) (c : Cluster)
    (ingress : RoutingObject) (cr : Grafana) :
  stageOf (reconcileIngress h c ingress cr) ≠ Some OperatorStageResultSuccess →
  adminURLOf (rec_cr (reconcileIngress h c ingress cr)) = adminURLOf cr.
Proof.
  pose proof (converge_sameDesired h c ingress cr) as [_ Hadmin].
  unfold reconcileIngress, stageOf.
  destruct (gs_HttpRoute (cr_Spec cr)); [|done].
  destruct (up_err (converge h c ingress cr)); [done|].
  destruct (PreferIngress _); [|done].
  destruct (getHttpRouteAdminURL (up_cluster (converge h c ingress cr))
              (up_obj (converge h c ingress cr))
              (Some (up_obj (converge h c ingress cr))))
    as [evs [url|reason]]; [|done].
  destruct (decide (length _ = 0)); [done|].
  destruct (decide (url = "")); done.
Qed.

Lemma adminURL_kept_unless_success_witness :
  adminURLOf (rec_cr (reconcileIngress sampleHelpers
                        (clusterWithRoute (liveRoute [mkLoadBalancerIngress "" ""]))
                        newIngress staleCondition)) =
  "http://old.example.com".
Proof.
  apply (adminURL_kept_unless_success sampleHelpers
           (clusterWithRoute (liveRoute [mkLoadBalancerIngress "" ""]))
           newIngress staleCondition).
  discriminate.
Defined.

(** X9.  A reconcile never changes the desired state of the resource: its
    identity, its labels and its specification are as they were, and so is
    every condition other than [InvalidMerge]. *)
Theorem reconcile_keeps_desired_state (h : Helpers) (c : Cluster)
    (ingress : RoutingObject) (cr : Grafana) :
  sameDesired cr (rec_cr (reconcileIngress h c ingress cr)) ∧
  ∀ k, k ≠ "InvalidMerge" →
    st_Conditions (cr_Status (rec_cr (reconcileIngress h c ingress cr))) !! k =
    st_Conditions (cr_Status cr) !! k.
Proof.
  pose proof (converge_sameDesired h c ingress cr) as [Hsame _].
  pose proof (converge_conditions h c ingress cr) as Hconds.
  destruct (reconcileIngress_cr h c ingress cr) as [->|[->|[url ->]]].
  - split; [apply sameDesired_refl|done].
  - done.
  - split; [|done]. destruct Hsame as (?&?&?&?). by repeat split.
Qed.

Lemma reconcile_keeps_desired_state_witness :
  sameDesired staleCondition
    (rec_cr (reconcileIngress sampleHelpers clusterWithAddress newIngress
               staleCondition)) ∧
  st_Conditions (cr_Status (rec_cr (reconcileIngress sampleHelpers
                                      clusterWithAddress newIngress
                                      staleCondition))) !! "Ready" =
  st_Conditions (cr_Status staleCondition) !! "Ready".
Proof.
  destruct (reconcile_keeps_desired_state sampleHelpers clusterWithAddress
              newIngress staleCondition) as [Hsame Hconds].
  split; [exact Hsame|]. apply Hconds. discriminate.
Defined.

(** X10.  For a resource that does not prefer this exposure mode, the
    reconcile does not resolve the endpoint: it sends no request for a
    gateway, writes no log line and cannot panic; it returns Success when the
    resource does not ask for the route or the upsert succeeds, and Failed
    with the error of the upsert otherwise. *)
Theorem reconcile_not_preferred (h : Helpers) (c : Cluster)
    (ingress : RoutingObject) (cr : Grafana) :
  PreferIngress cr = false →
  rec_events (reconcileIngress h c ingress cr) = [] ∧
  rec_outcome (reconcileIngress h c ingress cr) =
    Returned
      (match gs_HttpRoute (cr_Spec cr), up_err (converge h c ingress cr) with
       | Some _, Some err => (OperatorStageResultFailed, Some err)
       | _, _ => (OperatorStageResultSuccess, None)
       end).
Proof.
  intros Hprefer.
  pose proof (converge_sameDesired h c ingress cr) as [(_ & _ & _ & Hspec) _].
  unfold reconcileIngress, PreferIngress in *.
  destruct (gs_HttpRoute (cr_Spec cr)); [|done].
  destruct (up_err (converge h c ingress cr)); [done|].
  by rewrite Hspec, Hprefer.
Qed.

Lemma reconcile_not_preferred_witness :
  rec_events notPreferredReconciled = [] ∧
  rec_outcome notPreferredReconciled =
    Returned (OperatorStageResultSuccess, None).
Proof.
  apply (reconcile_not_preferred sampleHelpers
           (clusterWithRoute
              (liveRoute [mkLoadBalancerIngress "" "lb.example.com"]))
           newIngress (sampleGrafana None false "http://grafana-service:3000")).
  reflexivity.
Defined.

(** X11.  When the store does not answer the lookup of the routing object,
    the reconcile returns Failed with the error of the store; the closure of
    the upsert is not run: the resource, its conditions and the cluster are
    as they were, and the endpoint is not resolved. *)
Theorem reconcile_store_outage (h : Helpers) (c : Cluster)
    (ingress : RoutingObject) (cr : Grafana) (msg : string) :
  gs_HttpRoute (cr_Spec cr) ≠ None →
  cl_routesDown c = Some msg →
  reconcileIngress h c ingress cr =
  mkReconciled c cr ingress []
    (Returned (OperatorStageResultFailed, Some (StoreError msg))).
Proof.
  intros Hroute Hdown.
  unfold reconcileIngress, converge, CreateOrUpdate, clientGet.
  destruct (gs_HttpRoute (cr_Spec cr)); [|done].
  by rewrite Hdown.
Qed.

Lemma reconcile_store_outage_witness :
  reconcileIngress sampleHelpers routesDown newIngress staleCondition =
  mkReconciled routesDown staleCondition newIngress []
    (Returned (OperatorStageResultFailed,
               Some (StoreError "etcd request timed out"))).
Proof.
  apply (reconcile_store_outage sampleHelpers routesDown newIngress
           staleCondition "etcd request timed out").
  - discriminate.
  - reflexivity.
Defined.

(** X12.  When the routing object is controlled by another resource, the
    reconcile returns Failed with an ownership error and writes nothing to
    the cluster.  The merge has succeeded by then, so the condition
    [InvalidMerge] of the resource is cleared all the same. *)
Theorem reconcile_ownership_conflict (h : Helpers) (c : Cluster)
    (ingress : RoutingObject) (cr : Grafana) (s : HTTPRouteSpec)
    (other : NamespacedName) :
  gs_HttpRoute (cr_Spec cr) ≠ None →
  cl_routesDown c = None →
  merge h (obj_Spec (fetchedOrNew c ingress)) (gs_Ingress (cr_Spec cr)) = inr s →
  obj_Owner (fetchedOrNew c ingress) = Some other →
  other ≠ (cr_Namespace cr, cr_Name cr) →
  (∃ msg, rec_outcome (reconcileIngress h c ingress cr) =
            Returned (OperatorStageResultFailed, Some (OwnershipError msg))) ∧
  rec_cluster (reconcileIngress h c ingress cr) = c ∧
  st_Conditions (cr_Status (rec_cr (reconcileIngress h c ingress cr)))
    !! "InvalidMerge" = None.
Proof.
  intros Hroute Hup Hmerge Howner Hother.
  assert (Hmut : ∀ base,
            merge h (obj_Spec base) (gs_Ingress (cr_Spec cr)) = inr s →
            obj_Owner base = Some other →
            mutateIngress h base (cr, GetGrafanaHttpRoute h cr) =
            ((removeInvalidMergeCondition cr "Ingress",
              setSpec (GetGrafanaHttpRoute h cr) (getIngressSpec h cr)),
             setSpec base s,
             Some (OwnershipError
                     "object is already owned by another controller"))).
  { intros base Hm Ho. unfold mutateIngress, Merge, SetControllerReference.
    rewrite Hm. simpl. rewrite Ho. by rewrite decide_False. }
  assert (Hconv : up_cluster (converge h c ingress cr) = c ∧
                  (up_captured (converge h c ingress cr)).1 =
                    removeInvalidMergeCondition cr "Ingress" ∧
                  up_err (converge h c ingress cr) =
                    Some (OwnershipError
                            "object is already owned by another controller")).
  { unfold converge, CreateOrUpdate, clientGet, fetchedOrNew in *.
    rewrite Hup.
    destruct (cl_routes c !! objectKey ingress) as [existing|];
      simpl in Hmerge, Howner; by rewrite (Hmut _ Hmerge Howner). }
  destruct Hconv as (Hc & Hcr & Herr).
  unfold reconcileIngress.
  destruct (gs_HttpRoute (cr_Spec cr)); [|done].
  rewrite Herr, Hc, Hcr. simpl. split; [by eexists|]. split; [done|].
  by rewrite lookup_delete_eq.
Qed.

Lemma reconcile_ownership_conflict_witness :
  (∃ msg, rec_outcome (reconcileIngress sampleHelpers
                         (clusterWithRoute foreignRoute) newIngress
                         staleCondition) =
            Returned (OperatorStageResultFailed, Some (OwnershipError msg))) ∧
  rec_cluster (reconcileIngress sampleHelpers (clusterWithRoute foreignRoute)
                 newIngress staleCondition) = clusterWithRoute foreignRoute ∧
  st_Conditions (cr_Status (rec_cr (reconcileIngress sampleHelpers
                                      (clusterWithRoute foreignRoute)
                                      newIngress staleCondition)))
    !! "InvalidMerge" = None.
Proof.
  apply (reconcile_ownership_conflict sampleHelpers
           (clusterWithRoute foreignRoute) newIngress staleCondition emptySpec
           ("monitoring", "another-grafana")).
  - discriminate.
  - reflexivity.
  - reflexivity.
  - reflexivity.
  - discriminate.
Defined.

(** ** The reconcile step and the cluster *)

(** The upsert leaves the cluster as it was, or writes one object under the
    identity of the object it worked on. *)
Lemma converge_cluster (h : Helpers) (c : Cluster) (ingress : RoutingObject)
    (cr : Grafana) :
  up_cluster (converge h c ingress cr) = c ∨
  ∃ o', up_cluster (converge h c ingress cr) = putRoute c o' ∧
        objectKey o' = objectKey (fetchedOrNew c ingress).
Proof.
  unfold converge, CreateOrUpdate, fetchedOrNew.
  destruct (clientGet c (objectKey ingress)) as [err|existing] eqn:Hget.
  - destruct (IsNotFound err) eqn:Hnf; [|by left].
    destruct (clientGet_not_found _ _ _ Hget Hnf) as [_ ->].
    pose proof (mutateIngress_object h ingress cr (GetGrafanaHttpRoute h cr))
      as [Hkey _].
    destruct (mutateIngress h ingress _) as [[[cr' hr'] o'] [e|]];
      simpl in *; [by left|].
    unfold clientCreate. destruct (cl_routesDown c); [by left|].
    destruct (cl_routes c !! objectKey o'); [by left|].
    right. by exists o'.
  - destruct (clientGet_inr _ _ _ Hget) as [_ ->].
    pose proof (mutateIngress_object h existing cr (GetGrafanaHttpRoute h cr))
      as [Hkey _].
    destruct (mutateIngress h existing _) as [[[cr' hr'] o'] [e|]];
      simpl in *; [by left|].
    destruct (decide (existing = o')); [by left|].
    unfold clientUpdate. destruct (cl_routesDown c); [by left|].
    destruct (cl_routes c !! objectKey o'); [|by left].
    right. by exists o'.
Qed.

Lemma fetchedOrNew_key (c : Cluster) (ingress : RoutingObject) :
  wfCluster c → objectKey (fetchedOrNew c ingress) = objectKey ingress.
Proof.
  intros Hwf. unfold fetchedOrNew.
  destruct (cl_routes c !! objectKey ingress) as [existing|] eqn:Hsome;
    [|done].
  apply (Hwf _ _ Hsome).
Qed.

Lemma reconcileIngress_cluster (h : Helpers) (c : Cluster)
    (ingress : RoutingObject) (cr : Grafana) :
  rec_cluster (reconcileIngress h c ingress cr) = c ∨
  rec_cluster (reconcileIngress h c ingress cr) =
    up_cluster (converge h c ingress cr).
Proof.
  unfold reconcileIngress.
  destruct (gs_HttpRoute (cr_Spec cr)); [|by left].
  destruct (up_err (converge h c ingress cr)); [by right|].
  destruct (PreferIngress _); [|by right].
  destruct (getHttpRouteAdminURL (up_cluster (converge h c ingress cr))
              (up_obj (converge h c ingress cr))
              (Some (up_obj (converge h c ingress cr))))
    as [evs [url|reason]]; [|by right].
  destruct (decide (length _ = 0)); [by right|].
  destruct (decide (url = "")); by right.
Qed.

(** X13.  A reconcile writes to one place of the cluster at most.  The
    gateways and the state of the API are as they were.  In a cluster that
    stores every routing object under its own identity, the routing objects
    under another identity than that of [ingress] are as they were, and the
    cluster after the reconcile still stores every object under its own
    identity. *)
Theorem reconcile_frame (h : Helpers) (c : Cluster) (ingress : RoutingObject)
    (cr : Grafana) :
  cl_gateways (rec_cluster (reconcileIngress h c ingress cr)) = cl_gateways c ∧
  cl_gatewaysDown (rec_cluster (reconcileIngress h c ingress cr)) =
    cl_gatewaysDown c ∧
  cl_routesDown (rec_cluster (reconcileIngress h c ingress cr)) =
    cl_routesDown c ∧
  (wfCluster c →
     wfCluster (rec_cluster (reconcileIngress h c ingress cr)) ∧
     ∀ k, k ≠ objectKey ingress →
       cl_routes (rec_cluster (reconcileIngress h c ingress cr)) !! k =
       cl_routes c !! k).
Proof.
  assert (Hcases : rec_cluster (reconcileIngress h c ingress cr) = c ∨
            ∃ o', rec_cluster (reconcileIngress h c ingress cr) = putRoute c o' ∧
                  objectKey o' = objectKey (fetchedOrNew c ingress)).
  { destruct (reconcileIngress_cluster h c ingress cr) as [->| ->];
      [by left|apply converge_cluster]. }
  destruct Hcases as [->|(o' & -> & Hkey)]; [done|].
  split; [done|]. split; [done|]. split; [done|].
  intros Hwf. split.
  - unfold wfCluster, putRoute. simpl. by apply map_Forall_insert_2.
  - intros k Hk. rewrite (fetchedOrNew_key _ _ Hwf) in Hkey.
    unfold putRoute. simpl. rewrite lookup_insert_ne; [done|congruence].
Qed.

Lemma reconcile_frame_witness :
  wfCluster (rec_cluster preferredReconciled) ∧
  ∀ k, k ≠ objectKey newIngress →
    cl_routes (rec_cluster preferredReconciled) !! k =
    cl_routes clusterWithAddress !! k.
Proof.
  destruct (reconcile_frame sampleHelpers clusterWithAddress newIngress
              (sampleGrafana None true "")) as (_ & _ & _ & Hwf).
  apply Hwf. unfold wfCluster, clusterWithAddress, clusterWithRoute. simpl.
  apply map_Forall_singleton. reflexivity.
Defined.

(** X14.  A reconcile panics exactly when the resource asks for the route
    and prefers this exposure mode, the upsert has succeeded, and the first
    parent reference of the converged object has no namespace.  The upsert is
    not undone: the cluster after the panic is the one that the upsert
    left. *)
Theorem reconcile_panics_iff (h : Helpers) (c : Cluster)
    (ingress : RoutingObject) (cr : Grafana) :
  ((∃ reason, rec_outcome (reconcileIngress h c ingress cr) = Panicked reason) ↔
   gs_HttpRoute (cr_Spec cr) ≠ None ∧
   up_err (converge h c ingress cr) = None ∧
   PreferIngress cr = true ∧
   NilParentNamespace (up_obj (converge h c ingress cr))) ∧
  ((∃ reason, rec_outcome (reconcileIngress h c ingress cr) = Panicked reason) →
   rec_cluster (reconcileIngress h c ingress cr) =
   up_cluster (converge h c ingress cr)).
Proof.
  pose proof (converge_sameDesired h c ingress cr) as [(_ & _ & _ & Hspec) _].
  unfold reconcileIngress, PreferIngress.
  destruct (gs_HttpRoute (cr_Spec cr)) as [frag|].
  2:{ split; [split|]; [by intros [? ?]|by intros [? _]|by intros [? ?]]. }
  destruct (up_err (converge h c ingress cr)) as [err|].
  { split; [split|]; [by intros [? ?]|by intros (_ & ? & _)|by intros [? ?]]. }
  rewrite Hspec.
  destruct (gs_PreferIngress (cr_Spec cr)).
  2:{ split; [split|]; [by intros [? ?]|by intros (_ & _ & ? & _)|by intros [? ?]]. }
  destruct (parent_cases (up_cluster (converge h c ingress cr))
              (up_obj (converge h c ingress cr)))
    as [[gw Hgw]|[(nn & err & Hf)|Hnil]].
  - pose proof (getHttpRouteAdminURL_parent _ (up_obj (converge h c ingress cr))
                  _ _ Hgw) as Hout.
    assert (Hsafe : ¬ NilParentNamespace (up_obj (converge h c ingress cr))).
    { intros (pr & rest & Hrefs & Hns).
      destruct Hgw as [Hnone|pr' rest' ns gw Hrefs' Hns' _]; congruence. }
    destruct (getHttpRouteAdminURL _ _ _) as [evs [url|reason]];
      [|discriminate Hout].
    destruct (decide (length _ = 0)); [|destruct (decide (url = ""))];
      (split; [split|]; [by intros [? ?]|by intros (_ & _ & _ & ?)|by intros [? ?]]).
  - rewrite (getHttpRouteAdminURL_fetch_fails _ _ _ _ _ Hf).
    assert (Hsafe : ¬ NilParentNamespace (up_obj (converge h c ingress cr))).
    { intros (pr & rest & Hrefs & Hns).
      destruct Hf as (pr' & rest' & ns & Hrefs' & Hns' & _). congruence. }
    destruct (decide (length _ = 0));
      (split; [split|]; [by intros [? ?]|by intros (_ & _ & _ & ?)|by intros [? ?]]).
  - rewrite (getHttpRouteAdminURL_nil_namespace _ _ _ Hnil). simpl.
    split; [split|]; [done|by eexists|done].
Qed.

Lemma reconcile_panics_iff_witness :
  ∃ reason,
    rec_outcome (reconcileIngress sampleHelpers
                   (clusterWithRoute routeNilNamespace) routeNilNamespace
                   (sampleGrafana None true "")) = Panicked reason.
Proof.
  apply (reconcile_panics_iff sampleHelpers (clusterWithRoute routeNilNamespace)
           routeNilNamespace (sampleGrafana None true "")).
  split; [discriminate|]. split; [reflexivity|]. split; [reflexivity|].
  exists (mkParentReference None "public-gateway"), []. split; reflexivity.
Defined.

(** A closure that returns no error has merged the override, made the
    resource the controller and copied its labels. *)
Lemma mutateIngress_success (h : Helpers) (o o' : RoutingObject)
    (cr cr' : Grafana) (hr hr' : RoutingObject) :
  mutateIngress h o (cr, hr) = ((cr', hr'), o', None) →
  merge h (obj_Spec o) (gs_Ingress (cr_Spec cr)) = inr (obj_Spec o') ∧
  obj_Owner o' = Some (cr_Namespace cr, cr_Name cr) ∧
  obj_Labels o' = cr_Labels cr ∪ obj_Labels o ∧
  (obj_Owner o = None ∨ obj_Owner o = Some (cr_Namespace cr, cr_Name cr)).
Proof.
  unfold mutateIngress, Merge, SetControllerReference.
  destruct (merge h (obj_Spec o) _) as [e|s]; simpl; [done|].
  destruct (obj_Owner o) as [owner|] eqn:Howner; simpl.
  - destruct (decide (owner = _)) as [->|]; simpl; [|done].
    intros [= <- <- <-]. simpl. rewrite Howner. auto.
  - intros [= <- <- <-]. simpl. auto.
Qed.

(** An upsert without error has run the closure on the object found, or on
    the new one, and the closure has returned no error. *)
Lemma converge_success (h : Helpers) (c : Cluster) (ingress : RoutingObject)
    (cr : Grafana) :
  up_err (converge h c ingress cr) = None →
  mutateIngress h (fetchedOrNew c ingress) (cr, GetGrafanaHttpRoute h cr) =
  (up_captured (converge h c ingress cr), up_obj (converge h c ingress cr),
   None).
Proof.
  unfold converge, CreateOrUpdate, fetchedOrNew.
  destruct (clientGet c (objectKey ingress)) as [err|existing] eqn:Hget.
  - destruct (IsNotFound err) eqn:Hnf; [|done].
    destruct (clientGet_not_found _ _ _ Hget Hnf) as [_ ->].
    cbn [from_option id].
    destruct (mutateIngress h ingress (cr, GetGrafanaHttpRoute h cr))
      as [[[cr' hr'] o'] [e|]]; [done|].
    by destruct (clientCreate c o').
  - destruct (clientGet_inr _ _ _ Hget) as [_ ->].
    cbn [from_option id].
    destruct (mutateIngress h existing (cr, GetGrafanaHttpRoute h cr))
      as [[[cr' hr'] o'] [e|]]; [done|].
    destruct (decide (existing = o')); [done|].
    by destruct (clientUpdate c o').
Qed.

(** X15.  After an upsert without error, in a cluster that stores every
    object under its own identity, the cluster holds the converged object
    under the identity of [ingress].  The resource is its controller, it
    carries every label of the resource, and its other labels and its
    load-balancer status are those of the object found, or of the new one;
    its specification is the merge of the override into the specification of
    that object. *)
Theorem converge_postcondition (h : Helpers) (c : Cluster)
    (ingress : RoutingObject) (cr : Grafana) :
  wfCluster c →
  up_err (converge h c ingress cr) = None →
  let o := up_obj (converge h c ingress cr) in
  let base := fetchedOrNew c ingress in
  cl_routes (up_cluster (converge h c ingress cr)) !! objectKey ingress = Some o ∧
  objectKey o = objectKey ingress ∧
  obj_Owner o = Some (cr_Namespace cr, cr_Name cr) ∧
  (∀ k v, cr_Labels cr !! k = Some v → obj_Labels o !! k = Some v) ∧
  (∀ k, cr_Labels cr !! k = None → obj_Labels o !! k = obj_Labels base !! k) ∧
  obj_LoadBalancer o = obj_LoadBalancer base ∧
  merge h (obj_Spec base) (gs_Ingress (cr_Spec cr)) = inr (obj_Spec o).
Proof.
  intros Hwf Herr o base.
  destruct (converge_live h c ingress cr Hwf Herr) as [Hget _].
  destruct (clientGet_inr _ _ _ Hget) as [_ Hstored].
  pose proof (converge_success h c ingress cr Herr) as Hmut.
  destruct (up_captured (converge h c ingress cr)) as [cr' hr'].
  pose proof (mutateIngress_object h base cr (GetGrafanaHttpRoute h cr))
    as [Hkey Hlb].
  fold base in Hmut. rewrite Hmut in Hkey, Hlb. simpl in Hkey, Hlb.
  destruct (mutateIngress_success _ _ _ _ _ _ _ Hmut)
    as (Hmerge & Howner & Hlabels & _).
  fold o in Hstored, Hkey, Hlb, Hmerge, Howner, Hlabels.
  split; [done|]. split.
  { rewrite Hkey. by apply fetchedOrNew_key. }
  split; [done|]. rewrite Hlabels.
  split; [|split; [|done]].
  - intros k v Hk. by apply lookup_union_Some_l.
  - intros k Hk. by apply lookup_union_r.
Qed.

Lemma converge_postcondition_witness :
  cl_routes (up_cluster convergedOnce) !! objectKey newIngress =
    Some (up_obj convergedOnce) ∧
  objectKey (up_obj convergedOnce) = objectKey newIngress ∧
  obj_Owner (up_obj convergedOnce) = Some ("monitoring", "grafana") ∧
  obj_Labels (up_obj convergedOnce) !! "app" = Some "grafana" ∧
  sampleMerge emptySpec (Some [("hostname", "grafana.example.com")]) =
    inr (obj_Spec (up_obj convergedOnce)).
Proof.
  destruct (converge_postcondition sampleHelpers emptyCluster newIngress
              hostnameOverride)
    as (Hstored & Hkey & Howner & Hlabels & _ & _ & Hmerge).
  - apply map_Forall_empty.
  - reflexivity.
  - split; [exact Hstored|]. split; [exact Hkey|]. split; [exact Howner|].
    split; [by apply Hlabels|]. exact Hmerge.
Defined.

(** ** The spec builder: ports and the route it describes *)

(** X16.  The spec builder does not check the port.  Whatever the port of
    the resource, the backend port of the built specification is that port
    cut to an [int32]: within the range of an [int32] it is the port itself,
    zero and negative numbers included; beyond, it wraps around.  The port is
    never a name. *)
Theorem getHttpRouteSpec_port (h : Helpers) (cr : Grafana) :
  let port := GetHttpRouteTargetPort h cr in
  (∀ rule backend,
     rule ∈ spec_Rules (getHttpRouteSpec h cr) →
     backend ∈ rule_BackendRefs rule →
     bor_Port (br_BackendObjectReference (hbr_BackendRef backend)) =
       Some (wrap32 (GetGrafanaPort h cr))) ∧
  (- 2 ^ 31 <= wrap32 (GetGrafanaPort h cr) < 2 ^ 31)%Z ∧
  ((- 2 ^ 31 <= GetGrafanaPort h cr < 2 ^ 31)%Z →
     wrap32 (GetGrafanaPort h cr) = GetGrafanaPort h cr) ∧
  ios_StrVal port = "" ∧
  sbp_Name (assignPort port) = "".
Proof.
  intros port. split; [|split; [apply wrap32_range|split; [apply wrap32_small|]]].
  - intros rule backend Hrule Hbackend.
    unfold getHttpRouteSpec in Hrule. simpl in Hrule.
    apply list_elem_of_singleton in Hrule as ->. simpl in Hbackend.
    apply list_elem_of_singleton in Hbackend as ->. simpl.
    unfold IntValue. simpl. by rewrite wrap32_idem.
  - split; [done|]. unfold assignPort. simpl.
    by destruct (decide _).
Qed.

Lemma getHttpRouteSpec_port_witness :
  wrap32 (GetGrafanaPort sampleHelpers (sampleGrafana None true "")) = 3000%Z.
Proof.
  destruct (getHttpRouteSpec_port sampleHelpers (sampleGrafana None true ""))
    as (_ & _ & Hsmall & _).
  apply Hsmall. simpl. lia.
Defined.

(** X17.  A routing object with the specification that the spec builder
    gives has no hostname and no parent reference.  Its endpoint is resolved
    without a request to the store and cannot panic, and its URL is that of
    the load-balancer status alone: the first hostname, or the last IP. *)
Theorem built_route_resolution (h : Helpers) (c : Cluster)
    (ingress route : RoutingObject) (cr : Grafana) :
  obj_Spec route = getHttpRouteSpec h cr →
  getHttpRouteAdminURL c ingress (Some route) =
  ([], Returned (composeURL (lbHost (obj_LoadBalancer ingress)))).
Proof.
  intros Hspec.
  assert (Hparent : ParentGateway c route emptyGateway).
  { constructor. by rewrite Hspec. }
  pose proof (getHttpRouteAdminURL_parent c ingress route _ Hparent) as Hout.
  assert (Hhost : foundHost route emptyGateway ingress =
                  lbHost (obj_LoadBalancer ingress)).
  { unfold foundHost, explicitHostname. by rewrite Hspec. }
  rewrite Hhost in Hout.
  unfold getHttpRouteAdminURL in *. rewrite Hspec in *. simpl in *.
  by f_equal.
Qed.

Lemma built_route_resolution_witness :
  getHttpRouteAdminURL gatewaysDown
    (builtRoute [mkLoadBalancerIngress "10.0.0.1" "";
                 mkLoadBalancerIngress "10.0.0.2" "lb.example.com"])
    (Some (builtRoute [mkLoadBalancerIngress "10.0.0.1" "";
                       mkLoadBalancerIngress "10.0.0.2" "lb.example.com"])) =
  ([], Returned "http://lb.example.com").
Proof.
  apply (built_route_resolution sampleHelpers gatewaysDown
           (builtRoute [mkLoadBalancerIngress "10.0.0.1" "";
                        mkLoadBalancerIngress "10.0.0.2" "lb.example.com"])
           (builtRoute [mkLoadBalancerIngress "10.0.0.1" "";
                        mkLoadBalancerIngress "10.0.0.2" "lb.example.com"])
           (sampleGrafana None true "")).
  reflexivity.
Defined.

(** ** Reconciling again *)

(** A closure that returns no error leaves, as the captured variables, the
    resource with the condition cleared and the route with the built
    specification. *)
Lemma mutateIngress_captured (h : Helpers) (o o' : RoutingObject)
    (cr : Grafana) (hr : RoutingObject) (st : Grafana * RoutingObject) :
  mutateIngress h o (cr, hr) = (st, o', None) →
  st = (removeInvalidMergeCondition cr "Ingress",
        setSpec hr (getIngressSpec h cr)).
Proof.
  unfold mutateIngress.
  destruct (Merge h o _); [done|].
  destruct (SetControllerReference _ _); [done|]. by intros [= <- _].
Qed.

(** After an upsert without error, an upsert for the same desired state
    finds the converged object and writes nothing. *)
Lemma converge_again (h : Helpers) (c : Cluster) (ingress : RoutingObject)
    (cr cr2 : Grafana) :
  wfCluster c →
  MergeIdempotent h (gs_Ingress (cr_Spec cr)) →
  up_err (converge h c ingress cr) = None →
  sameDesired cr cr2 →
  converge h (up_cluster (converge h c ingress cr)) ingress cr2 =
  mkUpserted (up_cluster (converge h c ingress cr))
    (up_obj (converge h c ingress cr))
    (removeInvalidMergeCondition cr2 "Ingress",
     setSpec (GetGrafanaHttpRoute h cr2) (getIngressSpec h cr2))
    OperationResultNone None.
Proof.
  intros Hwf Hidem Herr Hsame.
  destruct (converge_live h c ingress cr Hwf Herr)
    as (Hget & base & hr & cr' & hr' & Hmut).
  pose proof (mutateIngress_idempotent h base _ cr cr' cr2 hr hr'
                (GetGrafanaHttpRoute h cr2) Hidem Hsame Hmut) as [Hobj Hnone].
  set (up1 := converge h c ingress cr) in *.
  unfold converge at 1. unfold CreateOrUpdate. rewrite Hget.
  destruct (mutateIngress h (up_obj up1) (cr2, GetGrafanaHttpRoute h cr2))
    as [st2 ferr] eqn:Hmut2.
  destruct st2 as [st2 o2]. simpl in Hobj, Hnone. subst o2 ferr.
  rewrite (mutateIngress_captured _ _ _ _ _ _ Hmut2).
  by rewrite decide_True.
Qed.

Lemma removeInvalidMergeCondition_idem (cr : Grafana) (url : string) :
  removeInvalidMergeCondition
    (setAdminURL (removeInvalidMergeCondition cr "Ingress") url) "Ingress" =
  setAdminURL (removeInvalidMergeCondition cr "Ingress") url ∧
  removeInvalidMergeCondition (removeInvalidMergeCondition cr "Ingress")
    "Ingress" = removeInvalidMergeCondition cr "Ingress".
Proof.
  unfold removeInvalidMergeCondition, setAdminURL, setConditions. simpl.
  by rewrite delete_delete_eq.
Qed.

(** When the resource asks for the route and the upsert returns no error,
    the reconcile is lines 76-91 on what the upsert leaves. *)
Lemma reconcileIngress_after_upsert (h : Helpers) (c : Cluster)
    (ingress : RoutingObject) (cr : Grafana) (up : Upserted (Grafana * RoutingObject)) :
  gs_HttpRoute (cr_Spec cr) ≠ None →
  converge h c ingress cr = up →
  up_err up = None →
  reconcileIngress h c ingress cr =
  if PreferIngress (up_captured up).1 then
    match getHttpRouteAdminURL (up_cluster up) (up_obj up) (Some (up_obj up)) with
    | (evs, Panicked reason) =>
        mkReconciled (up_cluster up) (up_captured up).1 (up_obj up) evs
          (Panicked reason)
    | (evs, Returned adminURL) =>
        if decide (length (obj_LoadBalancer (up_obj up)) = 0) then
          mkReconciled (up_cluster up) (up_captured up).1 (up_obj up) evs
            (Returned (OperatorStageResultInProgress,
                       Some (Errorf "ingress is not ready yet")))
        else if decide (adminURL = "") then
          mkReconciled (up_cluster up) (up_captured up).1 (up_obj up) evs
            (Returned (OperatorStageResultFailed,
                       Some (Errorf "ingress spec is incomplete")))
        else
          mkReconciled (up_cluster up) (setAdminURL (up_captured up).1 adminURL)
            (up_obj up) evs (Returned (OperatorStageResultSuccess, None))
    end
  else
    mkReconciled (up_cluster up) (up_captured up).1 (up_obj up) []
      (Returned (OperatorStageResultSuccess, None)).
Proof.
  intros Hroute <- Herr. unfold reconcileIngress.
  destruct (gs_HttpRoute (cr_Spec cr)); [|done]. by rewrite Herr.
Qed.

(** X18.  A reconcile for the route whose upsert succeeded is stable.
    Reconciling again, with the cluster and the resource that the first
    reconcile left, writes nothing and gives the same result: the same
    cluster, resource and routing object, the same requests, and the same
    stage and error, or the same panic.  The cluster stores every object
    under its own identity, and the merge of the override is idempotent. *)
Theorem reconcile_stable (h : Helpers) (c : Cluster) (ingress : RoutingObject)
    (cr : Grafana) :
  gs_HttpRoute (cr_Spec cr) ≠ None →
  wfCluster c →
  MergeIdempotent h (gs_Ingress (cr_Spec cr)) →
  up_err (converge h c ingress cr) = None →
  let r1 := reconcileIngress h c ingress cr in
  reconcileIngress h (rec_cluster r1) ingress (rec_cr r1) = r1 ∧
  up_result (converge h (rec_cluster r1) ingress (rec_cr r1)) =
    OperationResultNone.
Proof.
  intros Hasks Hwf Hidem Herr r1.
  pose proof (mutateIngress_captured _ _ _ _ _ _
                (converge_success h c ingress cr Herr)) as Hcap.
  (* the second reconcile, for any state of the resource that keeps the
     desired state and has the condition cleared *)
  assert (Hsecond : ∀ cr2,
            sameDesired cr cr2 →
            removeInvalidMergeCondition cr2 "Ingress" = cr2 →
            converge h (up_cluster (converge h c ingress cr)) ingress cr2 =
            mkUpserted (up_cluster (converge h c ingress cr))
              (up_obj (converge h c ingress cr))
              (cr2, setSpec (GetGrafanaHttpRoute h cr2) (getIngressSpec h cr2))
              OperationResultNone None).
  { intros cr2 Hsame2 Hfix.
    rewrite (converge_again h c ingress cr cr2 Hwf Hidem Herr Hsame2).
    by rewrite Hfix. }
  assert (Hsame1 : sameDesired cr (removeInvalidMergeCondition cr "Ingress"))
    by apply sameDesired_setConditions.
  subst r1.
  rewrite (reconcileIngress_after_upsert h c ingress cr
             (converge h c ingress cr) Hasks eq_refl Herr).
  rewrite Hcap. cbn [fst].
  set (c1 := up_cluster (converge h c ingress cr)) in *.
  set (o1 := up_obj (converge h c ingress cr)) in *.
  set (cr1 := removeInvalidMergeCondition cr "Ingress") in *.
  assert (Hasks1 : ∀ url, gs_HttpRoute (cr_Spec (setAdminURL cr1 url)) ≠ None)
    by done.
  assert (Hfix1 : removeInvalidMergeCondition cr1 "Ingress" = cr1)
    by apply (proj2 (removeInvalidMergeCondition_idem cr "")).
  assert (Hfix2 : ∀ url,
            removeInvalidMergeCondition (setAdminURL cr1 url) "Ingress" =
            setAdminURL cr1 url)
    by (intros url; apply (proj1 (removeInvalidMergeCondition_idem cr url))).
  destruct (PreferIngress cr1) eqn:Hprefer.
  2:{ cbn [rec_cluster rec_cr]. rewrite (Hsecond cr1 Hsame1 Hfix1).
      split; [|done].
      rewrite (reconcileIngress_after_upsert h c1 ingress cr1 _
                 (Hasks1 (adminURLOf cr1)) (Hsecond cr1 Hsame1 Hfix1) eq_refl).
      cbn [up_captured up_cluster up_obj fst]. by rewrite Hprefer. }
  destruct (getHttpRouteAdminURL c1 o1 (Some o1)) as [evs [url|reason]] eqn:Hres.
  2:{ cbn [rec_cluster rec_cr]. rewrite (Hsecond cr1 Hsame1 Hfix1).
      split; [|done].
      rewrite (reconcileIngress_after_upsert h c1 ingress cr1 _
                 (Hasks1 (adminURLOf cr1)) (Hsecond cr1 Hsame1 Hfix1) eq_refl).
      cbn [up_captured up_cluster up_obj fst]. by rewrite Hprefer, Hres. }
  destruct (decide (length (obj_LoadBalancer o1) = 0)) as [Hlen|Hlen].
  { cbn [rec_cluster rec_cr]. rewrite (Hsecond cr1 Hsame1 Hfix1).
    split; [|done].
    rewrite (reconcileIngress_after_upsert h c1 ingress cr1 _
               (Hasks1 (adminURLOf cr1)) (Hsecond cr1 Hsame1 Hfix1) eq_refl).
    cbn [up_captured up_cluster up_obj fst]. rewrite Hprefer, Hres.
    by rewrite decide_True. }
  destruct (decide (url = "")) as [Hurl|Hurl].
  { cbn [rec_cluster rec_cr]. rewrite (Hsecond cr1 Hsame1 Hfix1).
    split; [|done].
    rewrite (reconcileIngress_after_upsert h c1 ingress cr1 _
               (Hasks1 (adminURLOf cr1)) (Hsecond cr1 Hsame1 Hfix1) eq_refl).
    cbn [up_captured up_cluster up_obj fst]. rewrite Hprefer, Hres.
    rewrite decide_False by done. by rewrite decide_True. }
  cbn [rec_cluster rec_cr].
  assert (Hsame2 : sameDesired cr (setAdminURL cr1 url)) by done.
  rewrite (Hsecond _ Hsame2 (Hfix2 url)). split; [|done].
  rewrite (reconcileIngress_after_upsert h c1 ingress (setAdminURL cr1 url) _
             (Hasks1 url) (Hsecond _ Hsame2 (Hfix2 url)) eq_refl).
  cbn [up_captured up_cluster up_obj fst].
  change (PreferIngress (setAdminURL cr1 url)) with (PreferIngress cr1).
  rewrite Hprefer, Hres.
  rewrite decide_False by done. by rewrite decide_False.
Qed.

Lemma reconcile_stable_witness :
  reconcileIngress sampleHelpers (rec_cluster preferredReconciled) newIngress
    (rec_cr preferredReconciled) = preferredReconciled ∧
  up_result (converge sampleHelpers (rec_cluster preferredReconciled) newIngress
               (rec_cr preferredReconciled)) = OperationResultNone.
Proof.
  apply (reconcile_stable sampleHelpers clusterWithAddress newIngress
           (sampleGrafana None true "")).
  - discriminate.
  - unfold wfCluster, clusterWithAddress, clusterWithRoute. simpl.
    apply map_Forall_singleton. reflexivity.
  - apply sampleMerge_idempotent.
  - reflexivity.
Defined.

(** ** When the resolver finds nothing *)

Lemma filter_nonempty_nil (l : list string) :
  filter (λ s, s ≠ "") l = [] ↔ Forall (λ s, s = "") l.
Proof.
  induction l as [|x l IH]; [by split; [constructor|]|].
  rewrite filter_cons, Forall_cons. destruct (decide (x ≠ "")) as [Hx|Hx].
  - split; [done|]. by intros [? _].
  - apply dec_stable in Hx. rewrite IH. tauto.
Qed.

Lemma firstNonEmpty_None (l : list string) :
  firstNonEmpty l = None ↔ Forall (λ s, s = "") l.
Proof.
  unfold firstNonEmpty. rewrite <- filter_nonempty_nil.
  destruct (filter _ l); [done|]. split; discriminate.
Qed.

Lemma lastNonEmpty_None (l : list string) :
  lastNonEmpty l = None ↔ Forall (λ s, s = "") l.
Proof.
  unfold lastNonEmpty. rewrite <- filter_nonempty_nil. apply last_None.
Qed.

(** X19.  When the route has no parent reference or its gateway was
    fetched, the resolver returns the empty URL only if nothing gives a host:
    the first hostname of the route is empty or missing, no address of the
    gateway has a value, and no entry of the load-balancer status has a
    hostname or an IP.  A single value anywhere gives a URL. *)
Theorem resolver_empty_iff (c : Cluster) (ingress route : RoutingObject)
    (gw : Gateway) :
  ParentGateway c route gw →
  ((getHttpRouteAdminURL c ingress (Some route)).2 = Returned "" ↔
   explicitHostname route = "" ∧
   Forall (λ a, addr_Value a = "") (gw_Addresses gw) ∧
   Forall (λ lb, lb_Hostname lb = "" ∧ lb_IP lb = "")
     (obj_LoadBalancer ingress)).
Proof.
  intros Hparent. rewrite (getHttpRouteAdminURL_parent _ _ _ _ Hparent).
  assert (Hnone : composeURL (foundHost route gw ingress) = "" ↔
                  foundHost route gw ingress = None).
  { destruct (foundHost route gw ingress); simpl; split; done. }
  assert (Hiff : Returned (composeURL (foundHost route gw ingress)) =
                   Returned "" ↔ foundHost route gw ingress = None).
  { rewrite <- Hnone. split; [by intros [= ?]|by intros ->]. }
  rewrite Hiff. clear Hnone Hiff.
  unfold foundHost, lbHost. rewrite firstNonEmpty_cons.
  assert (Hor : ∀ a b : option string,
            orElse a b = None ↔ a = None ∧ b = None).
  { intros [x|] b; simpl; split; try done; by intros [? ?]. }
  rewrite !Hor, !firstNonEmpty_None, lastNonEmpty_None.
  rewrite !Forall_fmap, !Forall_forall. simpl.
  destruct (decide (explicitHostname route ≠ "")) as [Hex|Hex].
  - split; [by intros [? _]|by intros [? _]].
  - apply dec_stable in Hex. split.
    + intros (_ & Haddr & Hh & Hip). split; [done|]. split; [done|].
      intros lb Hlb. split; [by apply Hh|by apply Hip].
    + intros (_ & Haddr & Hlb). split; [done|]. split; [done|].
      split; intros lb Hin; by apply Hlb.
Qed.

Lemma resolver_empty_iff_witness :
  (getHttpRouteAdminURL (clusterWithGateway [""; ""])
     (liveRoute [mkLoadBalancerIngress "" ""]) (Some routeParentOnly)).2 =
  Returned "".
Proof.
  apply (resolver_empty_iff (clusterWithGateway [""; ""])
           (liveRoute [mkLoadBalancerIngress "" ""]) routeParentOnly
           (mkGateway [mkListener "http"] (mkGatewayStatusAddress <$> [""; ""]))).
  - by apply (ParentGateway_fetched _ _ gatewayRef [] "infra").
  - split; [reflexivity|]. split; by repeat constructor.
Defined.
